(** * docsify-auto-headers: a shallow embedding of the numbering plugin

    The development follows [docs/docsify-auto-headers.js] function by
    function.  JavaScript values are modelled as follows.

    - A number is an IEEE 754 double.  The counters are integers held by
      doubles: a counter is the integer it holds ([Z]), and every operation
      on it rounds the exact result to the nearest integer a double holds.
      The bounds of a level spec are only compared: there a number is
      [NaN], an infinity or a rational.
    - Strings are [string]s of 8-bit code units.
    - An exception is a value of [exn]; code that can throw returns a
      [result].
    - The objects keyed by heading name (['h1'] ... ['h6']) are finite maps
      keyed by the heading level: the key [i] stands for the name [h{i}]. *)

From stdpp Require Import base gmap list strings pretty.
From Stdlib Require Import ZArith Ascii String QArith Lia.

Open Scope string_scope.
Open Scope Z_scope.

(** ** Exceptions *)

Inductive exn : Type :=
  | Error (message : option string)   (* [new Error(message)]; [None] is [undefined] *)
  | ReferenceError (ident : string)   (* an identifier that is not in scope *)
  | TypeError.                        (* property access on [undefined] or [null] *)

Inductive result (A : Type) : Type :=
  | Return (a : A)
  | Throw (e : exn).
Arguments Return {A} a.
Arguments Throw {A} e.

(** Sequencing stops at the first exception. *)
Global Instance result_bind : MBind result := λ A B k r,
  match r with
  | Return a => k a
  | Throw e => Throw e
  end.

Definition raises {A} (r : result A) : Prop := ∃ e, r = Throw e.

(** ** Numbers held by doubles *)

(** The integer a double holds nearest to [z], ties going to the even
    significand: an integer below 2^53 in absolute value is held exactly,
    a larger one keeps the 53 leading bits of its binary expansion.  The
    exponent is not bounded here; see [numberOf]. *)
Definition toDouble (z : Z) : Z :=
  let a := Z.abs z in
  if a <? 2 ^ 53 then z
  else
    let e := Z.log2 a - 52 in
    let q := a / 2 ^ e in
    let r := a mod 2 ^ e in
    let half := 2 ^ (e - 1) in
    let significand :=
      if r <? half then q
      else if half <? r then q + 1
      else if Z.even q then q else q + 1 in
    Z.sgn z * (significand * 2 ^ e).

(** An integer as a number value: what a conversion from an exact integer
    yields.  A double overflows to an infinity from 2^1024 on. *)
Inductive IntegerNumber : Type :=
  | IntNaN
  | IntInfinity (negative : bool)
  | IntFinite (value : Z).

Definition numberOf (z : Z) : IntegerNumber :=
  let d := toDouble z in
  if 2 ^ 1024 <=? Z.abs d then IntInfinity (z <? 0) else IntFinite d.

(** [Number::toString] on a positive integer [x] that a double holds.  The
    digits are those of the decimal with the fewest significant digits that
    still reads back as [x]: a multiple of the largest power of ten that has
    one, the nearest to [x], the one with the even last digit in a tie. *)
Definition readsBack (x candidate : Z) : bool := toDouble candidate =? x.

Definition decimalAt (x : Z) (j : nat) : option Z :=
  let p := 10 ^ Z.of_nat j in
  let lo := x / p * p in
  let hi := lo + p in
  match readsBack x lo, readsBack x hi with
  | true, true =>
      Some (if x - lo <? hi - x then lo
            else if hi - x <? x - lo then hi
            else if Z.even (lo / p) then lo else hi)
  | true, false => Some lo
  | false, true => Some hi
  | false, false => None
  end.

(** The search goes down from the power [j]. *)
Fixpoint shortestDecimal (x : Z) (j : nat) : Z :=
  match decimalAt x j with
  | Some c => c
  | None =>
      match j with
      | O => x
      | S j' => shortestDecimal x j'
      end
  end.

Fixpoint dropTrailingZeros (digits : string) : string :=
  match digits with
  | EmptyString => EmptyString
  | String c rest =>
      match dropTrailingZeros rest with
      | EmptyString => if Ascii.eqb c "0"%char then EmptyString else String c EmptyString
      | rest' => String c rest'
      end
  end.

(** The exponent form [d.ddde+n] of a decimal of 22 digits or more. *)
Definition exponentForm (c : Z) : string :=
  let digits := pretty c in
  let exponent := pretty (Z.of_nat (String.length digits) - 1) in
  match dropTrailingZeros digits with
  | EmptyString => digits
  | String d EmptyString => String d ("e+" +:+ exponent)
  | String d rest => String d ("." +:+ rest +:+ "e+" +:+ exponent)
  end.

Definition positiveToString (x : Z) : string :=
  let c := shortestDecimal x (Z.to_nat (Z.log2 x)) in
  if c <? 10 ^ 21 then pretty c else exponentForm c.

(** [String(x)] for an integer [x] a double holds, as [join] and the
    property lookup apply it. *)
Definition numberToString (x : Z) : string :=
  if x =? 0 then "0"
  else if x <? 0 then "-" +:+ positiveToString (- x)
  else positiveToString x.

(** ** Numbers that are compared *)

(** A number other than [NaN]: an infinity or a rational. *)
Inductive Real : Type :=
  | RealInfinity (negative : bool)
  | Rational (q : Q).

Definition integer (z : Z) : Real := Rational (inject_Z z).
Coercion integer : Z >-> Real.

(** An integer written under [Some] reads as a number. *)
Arguments Some {A} & a.

Definition Real_leb (x y : Real) : bool :=
  match x, y with
  | RealInfinity true, _ => true
  | _, RealInfinity false => true
  | RealInfinity false, _ => false
  | _, RealInfinity true => false
  | Rational a, Rational b => Qle_bool a b
  end.

Definition Real_ltb (x y : Real) : bool := negb (Real_leb y x).

(** A number of the configuration that is not written as an integer.  A
    fraction may have an integral value. *)
Inductive NonInteger : Type :=
  | NaN
  | Infinity (negative : bool)
  | Fraction (q : Q).

(** The number as it is compared; [None] is [NaN]. *)
Definition realOf (x : NonInteger) : option Real :=
  match x with
  | NaN => None
  | Infinity negative => Some (RealInfinity negative)
  | Fraction q => Some (Rational q)
  end.

Definition nonIntegerTruthy (x : NonInteger) : bool :=
  match x with
  | NaN => false
  | Infinity _ => true
  | Fraction q => negb (Qeq_bool q 0)
  end.

(** ** Primitive values *)

(** A number among them is an integer a double holds. *)

Inductive jsval : Type :=
  | JUndefined
  | JNull
  | JBool (b : bool)
  | JNum (n : Z)
  | JStr (s : string).

Definition truthy (v : jsval) : bool :=
  match v with
  | JUndefined | JNull => false
  | JBool b => b
  | JNum n => negb (n =? 0)
  | JStr s => negb (String.eqb s "")
  end.

(** [ToString], as used when a value is a property key. *)
Definition toPropertyKey (v : jsval) : string :=
  match v with
  | JUndefined => "undefined"
  | JNull => "null"
  | JBool true => "true"
  | JBool false => "false"
  | JNum n => numberToString n
  | JStr s => s
  end.

(** The value of a [start] or [finish] property.  Bounds that are strings
    or objects are outside the model. *)
Inductive bound : Type :=
  | BUndefined
  | BNull
  | BBool (b : bool)
  | BNum (n : Z)                  (* an integer *)
  | BNonInteger (x : NonInteger).   (* any other number *)

(** [ToNumber] on a bound; [None] is [NaN]. *)
Definition toNumber (v : bound) : option Real :=
  match v with
  | BUndefined => None
  | BNull => Some 0
  | BBool true => Some 1
  | BBool false => Some 0
  | BNum n => Some n
  | BNonInteger x => realOf x
  end.

(** Relational operators after [ToNumber]: every comparison with [NaN] is
    false. *)
Definition js_ge (a b : option Real) : bool :=
  match a, b with
  | Some x, Some y => Real_leb y x
  | _, _ => false
  end.
Definition js_le (a b : option Real) : bool := js_ge b a.
Definition js_gt (a b : option Real) : bool :=
  match a, b with
  | Some x, Some y => Real_ltb y x
  | _, _ => false
  end.

(** ** Error messages *)

Definition errorMessageTable : list (string * string) :=
  [ ("configurationNotSetCorrectly", "Config settings not set");
    ("invalidHeadingLevels",
     "The levels parameter needs to be either a number (1-6) or an object");
    ("invalidHeadingLevelNumber", "Heading levels need to be between 1-6");
    ("invalidHeadingLevelOrder",
     "Heading start level cannot be greater than finish level");
    ("invalidHeadingLevelRange",
     "Heading levels need to be a value of 1 through to 6");
    ("nonNumericValue", "The levels start or finish need to be numeric");
    ("mismatchedSeparator",
     "The config separator does not match the signifier separator");
    ("missingAutoHeaderSignifier",
     "The markdown file is missing the @autoHeader: or <!-- autoHeader: --> signifier");
    ("misconfiguredSignifier",
     "The markdown file has the signifier, but it is misconfigured");
    ("invalidSidebar",
     "The sidebar parameter needs to be a boolean - true or false");
    ("exitingError",
     "An error has been found in your configuration, or setup. Please review your code and markdown data") ].

Fixpoint assoc (key : string) (table : list (string * string)) : option string :=
  match table with
  | [] => None
  | (k, v) :: rest => if String.eqb k key then Some v else assoc key rest
  end.

(** [errorMessage.key]: a key the object does not have reads as [undefined]. *)
Definition errorMessage (key : string) : option string :=
  assoc key errorMessageTable.

(** The failure kinds of the specification, as the messages that carry
    them. *)
Definition ConfigurationNotSet : exn := Error (errorMessage "configurationNotSetCorrectly").
Definition InvalidLevelType : exn := Error (errorMessage "invalidHeadingLevels").
Definition NonNumericBound : exn := Error (errorMessage "nonNumericValue").
Definition InvertedRange : exn := Error (errorMessage "invalidHeadingLevelOrder").
Definition OutOfRange : exn := Error (errorMessage "invalidHeadingLevelRange").
Definition MissingSignifier : exn := Error (errorMessage "missingAutoHeaderSignifier").
Definition MalformedSignifier : exn := Error (errorMessage "misconfiguredSignifier").
Definition ExitingError : exn := Error (errorMessage "exitingError").

Definition showErrorMessage (shouldShow : bool) (message : option string) : result unit :=
  if shouldShow then Throw (Error message) else Return tt.

(** ** The identifier [options] outside [autoHeaders]

    [validateAndReturnSidebar], [validateAndGetHeadingRange],
    [getStartingValues] and [checkAutoHeader] are declared next to
    [autoHeaders], not inside it, and none of them has a parameter or a local
    called [options]: the [options.debug] they pass to [showErrorMessage]
    is resolved in the global scope.  What it finds there is a parameter of
    the model. *)

Inductive GlobalOptions : Type :=
  | OptionsUnbound                 (* no global of that name *)
  | OptionsNullish                 (* a global holding [undefined] or [null] *)
  | OptionsDebug (debug : bool).   (* a global whose [debug] is truthy or not *)

Definition globalDebug (G : GlobalOptions) : result bool :=
  match G with
  | OptionsUnbound => Throw (ReferenceError "options")
  | OptionsNullish => Throw TypeError
  | OptionsDebug d => Return d
  end.

(** [showErrorMessage(options.debug, errorMessage.key)] in those functions:
    the argument is evaluated first. *)
Definition report (G : GlobalOptions) (message : option string) : result unit :=
  d ← globalDebug G; showErrorMessage d message.

(** ** setDefaultOptions *)

(** The [levels] option: a primitive, or an object read through its [start]
    and [finish] properties. *)
Inductive LevelsInput : Type :=
  | LPrim (v : jsval)
  | LNonInteger (x : NonInteger)   (* a number that is not written as an integer *)
  | LObject (start finish : bound).

Definition levelsTruthy (l : LevelsInput) : bool :=
  match l with
  | LPrim v => truthy v
  | LNonInteger x => nonIntegerTruthy x
  | LObject _ _ => true
  end.

Record RawOptions : Type := mkRawOptions {
  raw_separator : jsval;
  raw_levels : LevelsInput;
  raw_sidebar : jsval;
  raw_debug : jsval
}.

Definition docsifyAutoHeadersDefaults : RawOptions :=
  {| raw_separator := JStr "-";
     raw_levels := LPrim (JNum 6);
     raw_sidebar := JBool true;
     raw_debug := JBool true |}.

Definition separatorMap : list (string * string) :=
  [ ("decimal", "."); ("dot", "."); ("dash", "-"); ("hyphen", "-");
    ("bracket", ")"); ("parenthesis", ")") ].

(** The names every object literal inherits from [Object.prototype]; each
    holds a function or an object, so each is truthy. *)
Definition objectPrototypeNames : list string :=
  [ "constructor"; "__defineGetter__"; "__defineSetter__"; "hasOwnProperty";
    "__lookupGetter__"; "__lookupSetter__"; "isPrototypeOf";
    "propertyIsEnumerable"; "toString"; "valueOf"; "__proto__";
    "toLocaleString" ].

Definition isObjectPrototypeName (key : string) : bool :=
  existsb (String.eqb key) objectPrototypeNames.

(** The value held by [separator] after normalisation. *)
Inductive SeparatorValue : Type :=
  | SepPrim (v : jsval)
  | SepInherited (name : string).   (* the value of [Object.prototype[name]] *)

(** [separatorMap[key] || fallback] *)
Definition lookupSeparator (v : jsval) : SeparatorValue :=
  let key := toPropertyKey v in
  match assoc key separatorMap with
  | Some s => if truthy (JStr s) then SepPrim (JStr s) else SepPrim v
  | None => if isObjectPrototypeName key then SepInherited key else SepPrim v
  end.

Record DefaultOptions : Type := mkDefaultOptions {
  def_separator : SeparatorValue;
  def_levels : LevelsInput;
  def_sidebar : bool;
  def_debug : bool
}.

Definition setDefaultOptions (options : RawOptions) : result DefaultOptions :=
  (if negb (truthy (raw_separator options))
      || match raw_levels options with LPrim JUndefined => true | _ => false end
   then showErrorMessage (truthy (raw_debug options))
          (errorMessage "configurationNotSetCorrectly")
   else Return tt) ;;
  let separator := lookupSeparator (raw_separator options) in
  let levels :=
    if levelsTruthy (raw_levels options) then raw_levels options
    else LPrim (JNum 6) in
  let sidebar := truthy (raw_sidebar options) in
  let debug := truthy (raw_debug options) in
  Return {| def_separator := separator; def_levels := levels;
            def_sidebar := sidebar; def_debug := debug |}.

(** ** validateAndReturnSidebar *)

Definition validateAndReturnSidebar (G : GlobalOptions) (input : jsval)
  : result jsval :=
  match input with
  | JBool b => Return (JBool b)
  | _ => report G (errorMessage "invalidSidebar") ;; Return JUndefined
  end.

(** ** validateAndGetHeadingRange *)

Definition isInRange (value min max : option Real) : bool :=
  js_ge value min && js_le value max.

(** [typeof v === 'number'] *)
Definition isNumber (v : bound) : bool :=
  match v with BNum _ | BNonInteger _ => true | _ => false end.

Definition headingNameList : list nat := [1; 2; 3; 4; 5; 6]%nat.

Definition levelNum (i : nat) : option Real := Some (Z.of_nat i).

(** The loop [for (let i = 1; i <= 6; i++) headings[`h${i}`] = ...]. *)
Definition buildHeadings (start finish : option Real) : gmap nat bool :=
  foldl (λ headings i, <[i := isInRange (levelNum i) start finish]> headings)
        ∅ headingNameList.

Definition validateAndGetHeadingRange (G : GlobalOptions) (input : LevelsInput)
  : result (gmap nat bool) :=
  (match input with
   | LPrim (JNum _) | LNonInteger _ | LObject _ _ => Return tt
   | LPrim _ => report G (errorMessage "invalidHeadingLevels")
   end) ;;
  '(start, finish) ←
    (match input with
     | LPrim (JNum n) => Return (Some (integer 1), Some (integer n))
     | LNonInteger x => Return (Some (integer 1), realOf x)
     | LPrim JNull =>
         (* [typeof null === 'object']: destructuring [null] throws *)
         Throw TypeError
     | LObject start finish =>
         (if negb (isNumber start) || negb (isNumber finish)
          then report G (errorMessage "nonNumericValue") else Return tt) ;;
         (if js_gt (toNumber start) (toNumber finish)
          then report G (errorMessage "invalidHeadingLevelOrder") else Return tt) ;;
         Return (toNumber start, toNumber finish)
     | LPrim _ => Return (None, None)   (* [start] and [finish] stay [undefined] *)
     end);
  (if negb (isInRange start (Some 1) (Some 6))
      || negb (isInRange finish (Some 1) (Some 6))
   then report G (errorMessage "headingLevelRange") else Return tt) ;;
  Return (buildHeadings start finish).

(** ** Strings *)

Definition codeIn (c : ascii) (lo hi : nat) : bool :=
  (lo <=? nat_of_ascii c)%nat && (nat_of_ascii c <=? hi)%nat.

(** [\s] on 8-bit code units: tab, line feed, vertical tab, form feed,
    carriage return, space and no-break space. *)
Definition isWhiteSpace (c : ascii) : bool :=
  codeIn c 9 13 || codeIn c 32 32 || codeIn c 160 160.

(** The code units [.] does not match and around which [^] and [$] match
    under the [m] flag. *)
Definition isLineTerminator (c : ascii) : bool :=
  codeIn c 10 10 || codeIn c 13 13.

Definition isDigit (c : ascii) : bool := codeIn c 48 57.
Definition isLetter (c : ascii) : bool := codeIn c 65 90 || codeIn c 97 122.

Fixpoint allChars (p : ascii → bool) (s : string) : bool :=
  match s with
  | EmptyString => true
  | String c rest => p c && allChars p rest
  end.

(** The longest prefix whose code units satisfy [p], and what follows it. *)
Fixpoint spanChars (p : ascii → bool) (s : string) : string * string :=
  match s with
  | EmptyString => (EmptyString, EmptyString)
  | String c rest =>
      if p c then let '(run, after) := spanChars p rest in (String c run, after)
      else (EmptyString, s)
  end.

Definition trimStart (s : string) : string := snd (spanChars isWhiteSpace s).
Definition trimEnd (s : string) : string :=
  String.rev (trimStart (String.rev s)).
Definition trim (s : string) : string := trimEnd (trimStart s).

Fixpoint stripPrefix (p s : string) : option string :=
  match p, s with
  | EmptyString, _ => Some s
  | String a p', String b s' =>
      if Ascii.eqb a b then stripPrefix p' s' else None
  | String _ _, EmptyString => None
  end.

Definition startsWith (p s : string) : bool := bool_decide (is_Some (stripPrefix p s)).

(** [s.split(sep)] for a string [sep].  [cur] is the element being read, in
    reverse; [skip] counts the code units of a separator still to pass. *)
Fixpoint splitGo (sep s : string) (skip : nat) (cur : string) : list string :=
  match s with
  | EmptyString => [String.rev cur]
  | String c rest =>
      match skip with
      | S k => splitGo sep rest k cur
      | O =>
          if startsWith sep s
          then String.rev cur :: splitGo sep rest (String.length sep - 1) EmptyString
          else splitGo sep rest O (String c cur)
      end
  end.

Fixpoint chars (s : string) : list string :=
  match s with
  | EmptyString => []
  | String c rest => String c EmptyString :: chars rest
  end.

Definition split (sep s : string) : list string :=
  match sep with
  | EmptyString => chars s
  | _ => splitGo sep s O EmptyString
  end.

(** [a.join(sep)] on an array of strings. *)
Definition join (sep : string) (a : list string) : string := String.concat sep a.

(** ** checkAutoHeader *)

(** The class [[\d.a-zA-Z\-:,~]]. *)
Definition isSignifierChar (c : ascii) : bool :=
  isDigit c || isLetter c
  || existsb (Ascii.eqb c) ["."; "-"; ":"; ","; "~"]%char.

(** [s.match(autoHeaderPattern)], reduced to its capture group: the
    pattern is anchored at the start, one of the two prefixes is followed
    by the longest non-empty run of the class, and the closing [ -->] is
    optional. *)
Definition matchAutoHeader (s : string) : option string :=
  let afterPrefix :=
    match stripPrefix "@autoHeader:" s with
    | Some rest => Some rest
    | None => stripPrefix "<!-- autoHeader:" s
    end in
  match afterPrefix with
  | None => None
  | Some rest =>
      match fst (spanChars isSignifierChar rest) with
      | EmptyString => None
      | run => Some run
      end
  end.

Definition checkAutoHeader (G : GlobalOptions) (markdown : string) : result string :=
  let m := matchAutoHeader (trim markdown) in
  (if negb (bool_decide (is_Some m))
   then report G (errorMessage "missingAutoHeaderSignifier") else Return tt);;
  match m with
  | Some group1 => Return group1
  | None => Throw TypeError   (* [match[1]] on [null] *)
  end.

(** ** getStartingValues *)

Definition isAllNumeric (str : string) : bool :=
  negb (String.eqb str "") && allChars isDigit str.
Definition isAllAlphabetic (str : string) : bool :=
  negb (String.eqb str "") && allChars isLetter str.

(** [while (elements.length < 6) elements.push(pad)] *)
Definition padElements (pad : string) (elements : list string) : list string :=
  (elements ++ replicate (6 - List.length elements) pad)%list.

(** [startingValues[`h${i + 1}`] = { counter: elements[i] }] for [i] from 0
    to 5; an index past the end of the array reads as [undefined]. *)
Definition buildStartingValues (elements : list string) : gmap nat (option string) :=
  foldl (λ startingValues i, <[S i := elements !! i]> startingValues)
        ∅ (seq 0 6).

Definition getStartingValues (G : GlobalOptions) (headerNumbers separator : string)
  : result (gmap nat (option string)) :=
  let elements := map trim (split separator headerNumbers) in
  let isNumeric := forallb isAllNumeric elements in
  let isAlphabetic := forallb isAllAlphabetic elements in
  (if negb (isNumeric || isAlphabetic)
   then report G (errorMessage "invalidHeadingLevels") else Return tt);;
  let elements := padElements (if isNumeric then "1" else "A") elements in
  Return (buildStartingValues elements).

(** ** createCountContextObjects *)

(** One entry of the [levels] object handed to the renderers: the scope
    flag of [validateAndGetHeadingRange] spread together with the counter
    of [getStartingValues]; [counter] is [None] when the property is absent
    or [undefined]. *)
Record HeadingConfig : Type := mkHeadingConfig {
  inScope : bool;
  counter : option string
}.

Record CounterEntry : Type := mkCounterEntry {
  reset : Z;
  current : Z
}.

Record CountContext : Type := mkCountContext {
  currentCounts : gmap nat CounterEntry;
  scopedTagNames : gset nat
}.

Definition digitValue (c : ascii) : Z := Z.of_nat (nat_of_ascii c) - 48.

Fixpoint digitsValue (acc : Z) (s : string) : Z :=
  match s with
  | EmptyString => acc
  | String c rest => digitsValue (10 * acc + digitValue c) rest
  end.

(** [parseInt(str, 10)]: leading white space, an optional sign, then the
    longest run of decimal digits.  [mathInt] is the integer the digits
    write, [None] when there is none; the result is that integer as a
    number.  The digits are read exactly (the language lets an
    implementation read those after the twentieth significant one as
    zeros). *)
Definition mathInt (str : string) : option Z :=
  let s := trimStart str in
  let '(negative, s) :=
    match s with
    | String "-"%char rest => (true, rest)
    | String "+"%char rest => (false, rest)
    | _ => (false, s)
    end in
  match fst (spanChars isDigit s) with
  | EmptyString => None
  | digits =>
      let n := digitsValue 0 digits in
      Some (if negative then - n else n)
  end.

Definition parseIntString (str : string) : IntegerNumber :=
  match mathInt str with
  | Some n => numberOf n
  | None => IntNaN
  end.

(** [parseInt(counter, 10)] on a property that may be [undefined]. *)
Definition parseInt (counter : option string) : IntegerNumber :=
  match counter with
  | Some str => parseIntString str
  | None => parseIntString "undefined"
  end.

(** [Number.isFinite(counter) ? counter - 1 : 0] *)
Definition seedEntry (cfg : HeadingConfig) : CounterEntry :=
  let counter :=
    match parseInt (counter cfg) with
    | IntFinite n => toDouble (n - 1)
    | IntNaN | IntInfinity _ => 0
    end in
  {| reset := counter; current := counter |}.

Definition createCountContextObjects (levels : gmap nat HeadingConfig) : CountContext :=
  {| currentCounts := seedEntry <$> levels;
     scopedTagNames := dom (filter (λ entry, inScope entry.2 = true) levels) |}.

(** ** The counting step of [parseMarkdown] *)

(** [names.forEach(name => { if (currentCounts.has(name)) { ... } })]: the
    entry found is updated in place, [current] first. *)
Definition resetMinorCounts (names : list nat) (counts : gmap nat CounterEntry)
  : gmap nat CounterEntry :=
  foldl (λ counts name,
           match counts !! name with
           | Some nextMinorCounts =>
               <[name := {| reset := 0; current := reset nextMinorCounts |}]> counts
           | None => counts
           end)
        counts names.

(** [currentCounts.get(name).current], a [TypeError] on a missing key. *)
Definition getCurrent (counts : gmap nat CounterEntry) (name : nat) : result Z :=
  match counts !! name with
  | Some entry => Return (current entry)
  | None => Throw TypeError
  end.

Fixpoint mapResult {A B} (f : A → result B) (l : list A) : result (list B) :=
  match l with
  | [] => Return []
  | a :: rest => b ← f a; bs ← mapResult f rest; Return (b :: bs)
  end.

(** [Array.from({ length: headingLevel }, (_, i) =>
    currentCounts.get(`h${i + 1}`).current).join(sep) + sep] *)
Definition counterString (separator : string) (counts : gmap nat CounterEntry)
    (headingLevel : nat) : result string :=
  values ← mapResult (λ i, getCurrent counts (S i)) (seq 0 headingLevel);
  Return (join separator (map numberToString values) +:+ separator).

(** The body of the replacement callback up to the string it returns: the
    counts after the heading, and the label when the heading is in scope. *)
Definition advance (separator : string) (scoped : gset nat)
    (counts : gmap nat CounterEntry) (headingLevel : nat)
  : result (gmap nat CounterEntry * option string) :=
  let counts := resetMinorCounts (drop headingLevel headingNameList) counts in
  match counts !! headingLevel with
  | None => Throw TypeError   (* [counts.current] on [undefined] *)
  | Some entry =>
      let counts :=
        <[headingLevel := {| reset := reset entry;
                             current := toDouble (current entry + 1) |}]> counts in
      if bool_decide (headingLevel ∈ scoped)
      then label ← counterString separator counts headingLevel;
           Return (counts, Some label)
      else Return (counts, None)
  end.

(** ** parseMarkdown *)

(** What [markdown.replace(headingPattern, callback)] sees from left to
    right: a code unit outside every match, or a match of [headingPattern]
    (line start, one to six [#], white space, the rest of the line, line
    end; flags [g] and [m]) with its two groups and the white space between
    them. *)
Inductive Chunk : Type :=
  | Other (c : ascii)
  | Heading (hashes space text : string).

Definition matched (hashes space text : string) : string :=
  hashes +:+ space +:+ text.

Definition isHash (c : ascii) : bool := Ascii.eqb c "#"%char.

(** A match attempt at a line start.  [#{1,6}] takes the whole run of
    [#] (a run of seven or more leaves a [#] where [\s] is required), [\s+]
    the whole run of white space, line breaks included, and the second
    group the rest of that line. *)
Definition matchHeading (s : string) : option (string * string * string) :=
  let '(hashes, afterHashes) := spanChars isHash s in
  let '(space, afterSpace) := spanChars isWhiteSpace afterHashes in
  let '(text, _) := spanChars (λ c, negb (isLineTerminator c)) afterSpace in
  if (1 <=? String.length hashes)%nat && (String.length hashes <=? 6)%nat
     && negb (String.eqb space "")
  then Some (hashes, space, text)
  else None.

(** The scan.  [atLineStart] tells whether [^] matches before the next code
    unit; [skip] counts the code units of the last match still to pass, and
    the search resumes where that match ended. *)
Fixpoint scanGo (s : string) (atLineStart : bool) (skip : nat) : list Chunk :=
  match s with
  | EmptyString => []
  | String c rest =>
      match skip with
      | S k => scanGo rest (isLineTerminator c) k
      | O =>
          match (if atLineStart then matchHeading s else None) with
          | Some (hashes, space, text) =>
              Heading hashes space text
              :: scanGo rest (isLineTerminator c)
                   (String.length (matched hashes space text) - 1)
          | None => Other c :: scanGo rest (isLineTerminator c) O
          end
      end
  end.

Definition scanHeadings (markdown : string) : list Chunk :=
  scanGo markdown true O.

(** The replacement callback. *)
Definition replaceHeading (separator : string) (scoped : gset nat)
    (counts : gmap nat CounterEntry) (hashes space text : string)
  : result (gmap nat CounterEntry * string) :=
  let headingLevel := String.length hashes in
  '(counts, label) ← advance separator scoped counts headingLevel;
  match label with
  | Some counter => Return (counts, hashes +:+ " " +:+ counter +:+ " " +:+ text)
  | None => Return (counts, matched hashes space text)
  end.

Fixpoint replaceChunks (separator : string) (scoped : gset nat)
    (chunks : list Chunk) (counts : gmap nat CounterEntry) : result string :=
  match chunks with
  | [] => Return EmptyString
  | Other c :: rest =>
      out ← replaceChunks separator scoped rest counts;
      Return (String c out)
  | Heading hashes space text :: rest =>
      '(counts, replacement) ← replaceHeading separator scoped counts hashes space text;
      out ← replaceChunks separator scoped rest counts;
      Return (replacement +:+ out)
  end.

Definition parseMarkdown (markdown : string) (separator : string)
    (levels : gmap nat HeadingConfig) : result string :=
  let ctx := createCountContextObjects levels in
  replaceChunks separator (scopedTagNames ctx) (scanHeadings markdown)
    (currentCounts ctx).

(** ** applyCurrentCountThroughBoundContext *)

(** A heading element: its tag is [H{level}], its [innerHTML] is mutable. *)
Record HeadingNode : Type := mkHeadingNode {
  level : nat;
  innerHTML : string
}.

(** [headingNameList.indexOf(headingName)], [-1] when the name is not in
    the list. *)
Definition indexOfHeading (headingName : nat) : Z :=
  if bool_decide (headingName ∈ headingNameList)
  then Z.of_nat headingName - 1 else -1.

(** The body of [applyCurrentCountThroughBoundContext] under a given value
    of [this]; [None] is [undefined], which cannot be destructured. *)
Definition applyCurrentCountWith (this : option CountContext)
    (headingNode : HeadingNode) (separator : string)
  : result (CountContext * HeadingNode) :=
  match this with
  | None => Throw TypeError
  | Some ctx =>
      let headingName := level headingNode in
      let index := indexOfHeading headingName in
      let counts :=
        resetMinorCounts (drop (Z.to_nat (index + 1)) headingNameList)
          (currentCounts ctx) in
      match counts !! headingName with
      | None => Throw TypeError
      | Some entry =>
          let counts :=
            <[headingName := {| reset := reset entry;
                                current := toDouble (current entry + 1) |}]>
              counts in
          let ctx' := {| currentCounts := counts; scopedTagNames := scopedTagNames ctx |} in
          if bool_decide (headingName ∈ scopedTagNames ctx)
          then
            values ← mapResult (getCurrent counts)
                       (take (Z.to_nat (index + 1)) headingNameList);
            let counterValue :=
              join separator (map numberToString values) +:+ separator in
            Return (ctx', {| level := level headingNode;
                             innerHTML := counterValue +:+ " " +:+ innerHTML headingNode |})
          else Return (ctx', headingNode)
      end
  end.

(** The function is an arrow function, so its [this] is the [this] of the
    enclosing function: the module wrapper, a strict-mode function called
    without a receiver, where [this] is [undefined]. *)
Definition lexicalThis : option CountContext := None.

(** [applyCurrentCountThroughBoundContext.call(thisArg, heading, options)]:
    [call] cannot rebind the [this] of an arrow function. *)
Definition applyCurrentCountThroughBoundContext (thisArg : CountContext)
    (headingNode : HeadingNode) (separator : string)
  : result (CountContext * HeadingNode) :=
  applyCurrentCountWith lexicalThis headingNode separator.

(** ** applyScopedHeadingCounts *)

(** [headingList.forEach(...)] over the heading elements in document order.
    The elements are mutated in place: the list returned holds them as
    they are when the loop ends or throws. *)
Fixpoint forEachHeading (ctx : CountContext) (separator : string)
    (headingList : list HeadingNode) : list HeadingNode * option exn :=
  match headingList with
  | [] => ([], None)
  | heading :: rest =>
      match applyCurrentCountThroughBoundContext ctx heading separator with
      | Throw e => (headingList, Some e)
      | Return (ctx', heading') =>
          let '(rest', e) := forEachHeading ctx' separator rest in
          (heading' :: rest', e)
      end
  end.

(** The same loop with the context bound as [this], which is what the call
    site asks for. *)
Fixpoint forEachHeadingBound (ctx : CountContext) (separator : string)
    (headingList : list HeadingNode) : list HeadingNode * option exn :=
  match headingList with
  | [] => ([], None)
  | heading :: rest =>
      match applyCurrentCountWith (Some ctx) heading separator with
      | Throw e => (headingList, Some e)
      | Return (ctx', heading') =>
          let '(rest', e) := forEachHeadingBound ctx' separator rest in
          (heading' :: rest', e)
      end
  end.

(** The ['html'] branch: the headings of [input] in document order stand for
    [input.querySelectorAll('h1, h2, h3, h4, h5, h6')]. *)
Definition applyScopedHeadingCountsHtml (levels : gmap nat HeadingConfig)
    (separator : string) (input : list HeadingNode)
  : list HeadingNode * option exn :=
  forEachHeading (createCountContextObjects levels) separator input.

(** The ['markdown'] branch. *)
Definition applyScopedHeadingCountsMarkdown (levels : gmap nat HeadingConfig)
    (separator : string) (input : string) : result string :=
  parseMarkdown input separator levels.

(** ** autoHeaders *)

Record Options : Type := mkOptions {
  separator : string;
  levels : gmap nat HeadingConfig;
  sidebar : bool;
  debug : bool;
  shouldContinue : bool
}.

Definition setShouldContinue (b : bool) (options : Options) : Options :=
  {| separator := separator options; levels := levels options;
     sidebar := sidebar options; debug := debug options;
     shouldContinue := b |}.

(** [{ ...headingRanges[key], ...startingHeadingValues[key] }] for every
    key of [headingRanges]. *)
Definition mergeConfiguration (headingRanges : gmap nat bool)
    (startingHeadingValues : gmap nat (option string)) : gmap nat HeadingConfig :=
  map_imap (λ key range,
              Some {| inScope := range;
                      counter := mjoin (startingHeadingValues !! key) |})
           headingRanges.

(** [markdown.split('\n').slice(1).join('\n')] *)
Definition newline : string := String (ascii_of_nat 10) EmptyString.
Definition stripFirstLine (markdown : string) : string :=
  join newline (drop 1 (split newline markdown)).

(** Every object is truthy. *)
Definition objectTruthy {A} (object : A) : bool := true.

(** The [try] block of the first [beforeEach] hook.  [options] inside the
    hook is the local of [autoHeaders]. *)
Definition beforeEachTry (G : GlobalOptions) (defaultLevels : LevelsInput)
    (options : Options) (markdown : string) : result (Options * string) :=
  headingSignifier ← checkAutoHeader G markdown;
  (if String.eqb headingSignifier ""
   then showErrorMessage (debug options) (errorMessage "missingAutoHeaderSignifier")
   else Return tt);;
  headingRanges ← validateAndGetHeadingRange G defaultLevels;
  startingHeadingValues ← getStartingValues G headingSignifier (separator options);
  (if negb (objectTruthy startingHeadingValues)
   then showErrorMessage (debug options) (errorMessage "misconfiguredSignifier")
   else Return tt);;
  let headingConfiguration := mergeConfiguration headingRanges startingHeadingValues in
  let cleanedMarkdown := stripFirstLine markdown in
  Return ({| separator := separator options; levels := headingConfiguration;
             sidebar := sidebar options; debug := debug options;
             shouldContinue := true |},
          cleanedMarkdown).

(** The first [beforeEach] hook: the options it leaves behind and the value
    it hands to [next]; [None] is [undefined], the value of
    [cleanedMarkdown] when the [try] block did not reach its last line.
    The [catch] clause receives every exception of the block. *)
Definition beforeEachSignifier (G : GlobalOptions) (defaultLevels : LevelsInput)
    (options : Options) (markdown : string) : result (Options * option string) :=
  match beforeEachTry G defaultLevels options markdown with
  | Return (options', cleanedMarkdown) => Return (options', Some cleanedMarkdown)
  | Throw _ => Return (setShouldContinue false options, None)
  end.

(** The second [beforeEach] hook, registered when [options.sidebar] holds.
    [Throw] is an exception that leaves the hook; [Return] carries the
    value handed to [next]. *)
Definition beforeEachRender (options : Options) (markdown : option string)
  : result (option string) :=
  (if negb (shouldContinue options)
   then showErrorMessage (debug options) (errorMessage "exitingError")
   else Return tt);;
  match markdown with
  | None => Return None   (* [undefined.replace]: caught, [output] stays unset *)
  | Some text =>
      match applyScopedHeadingCountsMarkdown (levels options) (separator options) text with
      | Return output => Return (Some output)
      | Throw _ => Return None
      end
  end.


(** ** applyScopedHeadingCounts, with its dispatch on [type] *)

(** What a render hook receives: nothing, a string, or an element, seen
    through its headings in document order.  A string has a [replace]
    method and no [querySelectorAll]; an element has [querySelectorAll] and
    no [replace]. *)
Inductive HookInput : Type :=
  | InUndefined
  | InString (text : string)
  | InElement (headings : list HeadingNode).

(** The function returns the heading counts' result and leaves [input] as
    its heading elements are after the call: the ['html'] branch mutates
    them in place and returns nothing, the ['markdown'] branch returns the
    new text, any other [type] does nothing. *)
Definition applyScopedHeadingCounts (levels : gmap nat HeadingConfig)
    (separator : string) (input : HookInput) (type : string)
  : HookInput * result (option string) :=
  if String.eqb type "html" then
    match input with
    | InElement headings =>
        let '(headings', e) := applyScopedHeadingCountsHtml levels separator headings in
        (InElement headings',
         match e with Some e => Throw e | None => Return None end)
    | _ => (input, Throw TypeError)   (* [querySelectorAll] is not a function *)
    end
  else if String.eqb type "markdown" then
    match input with
    | InString text =>
        (input, output ← applyScopedHeadingCountsMarkdown levels separator text;
                Return (Some output))
    | _ => (input, Throw TypeError)   (* [replace] is not a function *)
    end
  else (input, Return None).

(** The [afterEach] hook, registered when [options.sidebar] does not hold:
    the input as the hook leaves it, and the value handed to [next], or the
    exception that leaves the hook. *)
Definition afterEachRender (options : Options) (html : HookInput)
  : HookInput * result (option string) :=
  if negb (shouldContinue options) && debug options
  then (html, Throw (Error (errorMessage "exitingError")))
  else
    let '(html', output) :=
      applyScopedHeadingCounts (levels options) (separator options) html "html" in
    (html', match output with
            | Return output => Return output
            | Throw _ => Return None   (* caught: [output] stays unset *)
            end).

(** ** autoHeaders: the options object *)

(** The object [autoHeaders] builds before it registers its hooks. *)
Record PluginOptions : Type := mkPluginOptions {
  plugin_separator : SeparatorValue;
  plugin_levels : gmap nat bool;
  plugin_sidebar : jsval;
  plugin_debug : bool;
  plugin_shouldContinue : bool
}.

Definition autoHeadersOptions (G : GlobalOptions) (defaults : RawOptions)
  : result PluginOptions :=
  defaultOptions ← setDefaultOptions defaults;
  levels ← validateAndGetHeadingRange G (def_levels defaultOptions);
  sidebar ← validateAndReturnSidebar G (JBool (def_sidebar defaultOptions));
  Return {| plugin_separator := def_separator defaultOptions;
            plugin_levels := levels;
            plugin_sidebar := sidebar;
            plugin_debug := def_debug defaultOptions;
            plugin_shouldContinue := false |}.

(** The render hook registered next to the signifier hook. *)
Inductive RenderHook : Type := TextHook | TreeHook.

Definition registeredRenderer (options : PluginOptions) : RenderHook :=
  if truthy (plugin_sidebar options) then TextHook else TreeHook.

(** ** The merge of the user configuration into the defaults *)

(** [window.$docsify.autoHeaders]: each key is absent ([None]) or holds a
    value. *)
Record UserConfig : Type := mkUserConfig {
  user_separator : option jsval;
  user_levels : option LevelsInput;
  user_sidebar : option jsval;
  user_debug : option jsval
}.

(** [Object.assign(docsifyAutoHeadersDefaults, user)]: the keys of [user]
    overwrite the defaults; an absent configuration ([None]) adds none. *)
Definition assignUserConfig (defaults : RawOptions) (user : option UserConfig)
  : RawOptions :=
  match user with
  | None => defaults
  | Some user =>
      {| raw_separator := default (raw_separator defaults) (user_separator user);
         raw_levels := default (raw_levels defaults) (user_levels user);
         raw_sidebar := default (raw_sidebar defaults) (user_sidebar user);
         raw_debug := default (raw_debug defaults) (user_debug user) |}
  end.

(** ** autoHeaders: the hooks and their options *)

(** The options object as the hooks read it: what [autoHeaders] has built,
    the level table still without counters.  The hooks are modelled for a
    separator that is a string; [split], [join] and [+] each convert another
    value in their own way. *)
Definition hookOptions (options : PluginOptions) : option Options :=
  match plugin_separator options with
  | SepPrim (JStr s) =>
      Some {| separator := s;
              levels := (λ range, {| inScope := range; counter := None |})
                        <$> plugin_levels options;
              sidebar := truthy (plugin_sidebar options);
              debug := plugin_debug options;
              shouldContinue := plugin_shouldContinue options |}
  | _ => None
  end.

(** The two [beforeEach] hooks, in the order of their registration: the
    host hands to the second what the first handed to [next].  The result
    is what the second hands on, with the options as the hooks leave
    them. *)
Definition beforeEachHooks (G : GlobalOptions) (defaultLevels : LevelsInput)
    (options : Options) (markdown : string) : result (Options * option string) :=
  '(options, passed) ← beforeEachSignifier G defaultLevels options markdown;
  output ← beforeEachRender options passed;
  Return (options, output).

(** * Vocabulary of the statements *)

Definition resetEntry (entry : CounterEntry) : CounterEntry :=
  {| reset := 0; current := reset entry |}.

Definition bumpEntry (entry : CounterEntry) : CounterEntry :=
  {| reset := reset entry; current := current entry + 1 |}.

(** The entry after [counts.current += 1]: the sum as a double holds it. *)
Definition nextEntry (entry : CounterEntry) : CounterEntry :=
  {| reset := reset entry; current := toDouble (current entry + 1) |}.

(** [Number.isSafeInteger]: below 2^53 in absolute value. *)
Definition safeInteger (n : Z) : Prop := - 2 ^ 53 < n < 2 ^ 53.

(** [current] at a level, for a state that has the level. *)
Definition currentAt (counts : gmap nat CounterEntry) (name : nat) : Z :=
  match counts !! name with
  | Some entry => current entry
  | None => 0
  end.

(** The state has an entry for each of [h1] ... [h6]. *)
Definition complete (counts : gmap nat CounterEntry) : Prop :=
  ∀ name, (1 ≤ name ≤ 6)%nat → is_Some (counts !! name).

(** The resolver on an object whose two bounds are integers. *)
Definition resolveObject (G : GlobalOptions) (start finish : Z)
  : result (gmap nat bool) :=
  validateAndGetHeadingRange G (LObject (BNum start) (BNum finish)).

Definition boundsInRange (start finish : Z) : Prop :=
  1 ≤ start ≤ 6 ∧ 1 ≤ finish ≤ 6.

Definition zeroEntry : CounterEntry := {| reset := 0; current := 0 |}.

(** The heading levels of the matches, in source order. *)
Fixpoint chunkLevels (chunks : list Chunk) : list nat :=
  match chunks with
  | [] => []
  | Other _ :: rest => chunkLevels rest
  | Heading hashes _ _ :: rest => String.length hashes :: chunkLevels rest
  end.

(** The labels a sequence of heading levels receives from [advance]. *)
Fixpoint labelsRun (separator : string) (scoped : gset nat)
    (counts : gmap nat CounterEntry) (headingLevels : list nat)
  : result (list (option string)) :=
  match headingLevels with
  | [] => Return []
  | headingLevel :: rest =>
      '(counts, label) ← advance separator scoped counts headingLevel;
      labels ← labelsRun separator scoped counts rest;
      Return (label :: labels)
  end.

(** The text with the given labels written into its matches, in order. *)
Fixpoint renderWith (chunks : list Chunk) (labels : list (option string)) : string :=
  match chunks with
  | [] => EmptyString
  | Other c :: rest => String c (renderWith rest labels)
  | Heading hashes space text :: rest =>
      match labels with
      | Some label :: labels =>
          (hashes +:+ " " +:+ label +:+ " " +:+ text) +:+ renderWith rest labels
      | None :: labels => matched hashes space text +:+ renderWith rest labels
      | [] => matched hashes space text +:+ renderWith rest []
      end
  end.

(** The [levels] object for the signifier tokens ["1"], ["1"] and the
    level spec [6]: the six levels in scope, each with the counter ["1"]. *)
Definition levelsOneOne : gmap nat HeadingConfig :=
  mergeConfiguration (buildHeadings (Some 1) (Some 6))
    (buildStartingValues ["1"; "1"; "1"; "1"; "1"; "1"]).

(** The counts seeded by the signifier tokens ["1"], ["1"]: 0 at every
    level. *)
Definition zeroCounts : gmap nat CounterEntry :=
  currentCounts (createCountContextObjects levelsOneOne).

Definition outlineLabels : list (option string) :=
  [Some "1-"; Some "1-1-"; Some "1-2-"; Some "2-"; Some "2-1-"].

Definition outlineDocument : string :=
  "# a
## b
## c
# d
## e".

(** A node with a label written before its content. *)
Definition prependLabel (label : option string) (node : HeadingNode) : HeadingNode :=
  match label with
  | Some counterValue =>
      {| level := level node;
         innerHTML := counterValue +:+ " " +:+ innerHTML node |}
  | None => node
  end.

(** The value a hook hands to [next]. *)
Definition handedToNext (r : result (Options * option string)) : result (option string) :=
  '(_, passed) ← r; Return passed.

(** The options [autoHeaders] builds from the defaults, before any page is
    read: the level table of the level spec [6], without counters. *)
Definition pageOptions (debugFlag : bool) : Options :=
  {| separator := "-";
     levels := (λ range, {| inScope := range; counter := None |})
               <$> buildHeadings (Some 1) (Some 6);
     sidebar := true;
     debug := debugFlag;
     shouldContinue := false |}.

(** The specification words for failures under [debug = false]: the
    pipeline does not raise and hands the original text on. *)
Definition claimedPassthrough (G : GlobalOptions) (defaultLevels : LevelsInput)
    (options : Options) (markdown : string) : Prop :=
  debug options = false →
  raises (beforeEachTry G defaultLevels options markdown) →
  handedToNext (beforeEachHooks G defaultLevels options markdown)
  = Return (Some markdown).

Definition untitledPage : string := "# Title".
Definition mixedPage : string := "@autoHeader:1-A
# Title".
Definition plainPage : string := "@autoHeader:1
# Title".

Definition notLineFeed (c : ascii) : bool := negb (Ascii.eqb "010" c).

(** The options after the first hook has read [plainPage]. *)
Definition labelledOptions : Options :=
  {| separator := "-"; levels := levelsOneOne; sidebar := true;
     debug := true; shouldContinue := true |}.

(** A page whose signifier comes after an empty line. *)
Definition leadingBlankPage : string := "
@autoHeader:1
# Title".

(** The separator mapping in the words of the specification. *)
Definition claimedSeparator (v : jsval) : jsval :=
  match v with
  | JStr s =>
      if bool_decide (s = "decimal" ∨ s = "dot") then JStr "."
      else if bool_decide (s = "dash" ∨ s = "hyphen") then JStr "-"
      else if bool_decide (s = "bracket" ∨ s = "parenthesis") then JStr ")"
      else v
  | _ => v
  end.

Definition claimedNormalisation (options : RawOptions) : Prop :=
  ∃ normalised,
    setDefaultOptions options = Return normalised
    ∧ def_separator normalised = SepPrim (claimedSeparator (raw_separator options)).

(** The shipped defaults with another separator. *)
Definition dotOptions : RawOptions :=
  {| raw_separator := JStr "dot"; raw_levels := LPrim (JNum 6);
     raw_sidebar := JBool true; raw_debug := JBool true |}.
Definition constructorOptions : RawOptions :=
  {| raw_separator := JStr "constructor"; raw_levels := LPrim (JNum 6);
     raw_sidebar := JBool true; raw_debug := JBool true |}.

Definition letterPage : string := "@autoHeader:A
# Title".

(** The options after the first hook has read [letterPage]. *)
Definition letterOptions : Options :=
  {| separator := "-";
     levels := mergeConfiguration (buildHeadings (Some 1) (Some 6))
                 (buildStartingValues ["A"; "A"; "A"; "A"; "A"; "A"]);
     sidebar := true; debug := true; shouldContinue := true |}.

(** The source text of a list of chunks. *)
Fixpoint chunksText (chunks : list Chunk) : string :=
  match chunks with
  | [] => EmptyString
  | Other c :: rest => String c (chunksText rest)
  | Heading hashes space text :: rest =>
      matched hashes space text +:+ chunksText rest
  end.

(** A string without its first [k] code units. *)
Fixpoint dropChars (k : nat) (s : string) : string :=
  match k, s with
  | O, _ => s
  | S k, String _ rest => dropChars k rest
  | S _, EmptyString => EmptyString
  end.

Definition notLineTerminator (c : ascii) : bool := negb (isLineTerminator c).

(** The shape of a heading match: one to six [#], white space, and a rest
    of line. *)
Definition wellFormedChunk (chunk : Chunk) : Prop :=
  match chunk with
  | Other _ => True
  | Heading hashes space text =>
      allChars isHash hashes = true
      ∧ (1 ≤ String.length hashes ≤ 6)%nat
      ∧ space ≠ EmptyString
      ∧ allChars isWhiteSpace space = true
      ∧ allChars notLineTerminator text = true
  end.

(** The configuration has an entry for each of [h1] ... [h6]. *)
Definition sixLevels (levels : gmap nat HeadingConfig) : Prop :=
  ∀ name, (1 ≤ name ≤ 6)%nat → is_Some (levels !! name).

(** The level is marked in scope by the configuration. *)
Definition levelInScope (levels : gmap nat HeadingConfig) (name : nat) : Prop :=
  ∃ cfg, levels !! name = Some cfg ∧ inScope cfg = true.

(** A configuration with the six levels, none of them in scope: the table
    of the inverted range 3..2 with the counters of the signifier ["1"]. *)
Definition levelsNoScope : gmap nat HeadingConfig :=
  mergeConfiguration (buildHeadings (Some 3) (Some 2))
    (buildStartingValues ["1"; "1"; "1"; "1"; "1"; "1"]).

(** A text without heading match: no white space after the first run of
    [#], seven [#] in the second. *)
Definition noHeadingDocument : string :=
  "#a
####### b".

(** The label of a heading of level [L] whose own counter shows [value],
    under the counters of the shallower levels in [counts]. *)
Definition labelUnder (separator : string) (counts : gmap nat CounterEntry)
    (L : nat) (value : Z) : string :=
  join separator
    (map numberToString (map (currentAt counts) (seq 1 (L - 1)) ++ [value])%list)
  +:+ separator.

(** A configuration whose six levels are in scope, the level [h{i}]
    seeded with the decimal numeral of [token i]. *)
Definition levelsOfTokens (token : nat → Z) : gmap nat HeadingConfig :=
  list_to_map
    (map (λ name, (name, {| inScope := true; counter := Some (pretty (token name)) |}))
       headingNameList).

(** Tokens that are read, lowered by one and printed exactly: each of them
    and its predecessor is a safe integer. *)
Definition safeTokens (token : nat → Z) : Prop :=
  ∀ name, (1 ≤ name ≤ 6)%nat →
    safeInteger (token name - 1) ∧ safeInteger (token name).

(** A valid level spec in integers: a number from 1 to 6, or two bounds
    with [1 ≤ start ≤ finish ≤ 6]. *)
Definition validSpec (input : LevelsInput) : Prop :=
  match input with
  | LPrim (JNum n) => 1 ≤ n ≤ 6
  | LObject (BNum start) (BNum finish) => 1 ≤ start ∧ start ≤ finish ∧ finish ≤ 6
  | _ => False
  end.

(** The two numbers of a level spec, when it has two: 1 and the number
    given, or the bounds of an object when both are numbers; [None] in a
    pair is [NaN]. *)
Definition specNumbers (input : LevelsInput) : option (option Real * option Real) :=
  match input with
  | LPrim (JNum n) => Some (Some (integer 1), Some (integer n))
  | LNonInteger x => Some (Some (integer 1), realOf x)
  | LObject start finish =>
      if isNumber start && isNumber finish
      then Some (toNumber start, toNumber finish) else None
  | LPrim _ => None
  end.

Definition Real_le (x y : Real) : Prop := Real_leb x y = true.

(** A level spec with [1 ≤ start ≤ finish ≤ 6], fractions included. *)
Definition acceptedSpec (input : LevelsInput) : Prop :=
  ∃ start finish a b,
    specNumbers input = Some (start, finish)
    ∧ start = Some a ∧ finish = Some b
    ∧ Real_le 1 a ∧ Real_le a b ∧ Real_le b 6.

(** The exceptions the resolver can raise. *)
Definition resolverError (e : exn) : Prop :=
  e = ReferenceError "options" ∨ e = TypeError ∨ e = InvalidLevelType
  ∨ e = NonNumericBound ∨ e = InvertedRange ∨ e = Error None.

(** The exceptions the [try] block of the first hook can raise. *)
Definition signifierHookError (e : exn) : Prop :=
  e = MissingSignifier ∨ resolverError e.

(** The string starts with a code unit that satisfies [p]. *)
Definition headSatisfies (p : ascii → bool) (s : string) : Prop :=
  ∃ c rest, s = String c rest ∧ p c = true.

(** The string is empty or starts with a code unit that satisfies [p]. *)
Definition endsOrHead (p : ascii → bool) (s : string) : Prop :=
  s = EmptyString ∨ headSatisfies p s.

Definition notWhiteSpace (c : ascii) : bool := negb (isWhiteSpace c).

(** The heading elements of the outline document. *)
Definition outlineNodes : list HeadingNode :=
  [ {| level := 1; innerHTML := "a" |}; {| level := 2; innerHTML := "b" |};
    {| level := 2; innerHTML := "c" |}; {| level := 1; innerHTML := "d" |};
    {| level := 2; innerHTML := "e" |} ].

(** The counts seeded by the token ["5"] at every level: 4. *)
Definition fourCounts : gmap nat CounterEntry :=
  currentCounts
    (createCountContextObjects
       (mergeConfiguration (buildHeadings (Some 1) (Some 6))
          (buildStartingValues ["5"; "5"; "5"; "5"; "5"; "5"]))).

(** The step the specification words ask for: [current] at the level
    grows by exactly one. *)
Definition claimedStep (separator : string) (scoped : gset nat)
    (counts : gmap nat CounterEntry) (L : nat) : Prop :=
  ∃ counts' label,
    advance separator scoped counts L = Return (counts', label)
    ∧ counts' !! L = bumpEntry <$> counts !! L.

(** The counts after the first level-1 heading of a page whose signifier
    token is [9007199254740993], that is 2^53 + 1. *)
Definition saturatedCounts : gmap nat CounterEntry :=
  <[1%nat := {| reset := 2 ^ 53 - 1; current := 2 ^ 53 |}]>
    ((λ _, {| reset := 0; current := 2 ^ 53 - 1 |}) <$> zeroCounts).

Definition twoTitles : string := "# a
# b".

(** * Properties *)

(** ** Numbers *)

Lemma toDouble_below z : Z.abs z < 2 ^ 53 → toDouble z = z.
Proof.
  intros Hz. unfold toDouble.
  by destruct (Z.ltb_spec (Z.abs z) (2 ^ 53)); [|lia].
Qed.

Lemma toDouble_exact z : - 2 ^ 53 ≤ z ≤ 2 ^ 53 → toDouble z = z.
Proof.
  intros Hz.
  destruct (decide (z = 2 ^ 53)) as [->|]; [by vm_compute|].
  destruct (decide (z = - 2 ^ 53)) as [->|]; [by vm_compute|].
  apply toDouble_below. lia.
Qed.

(** Rounding does not go below a power of two that the integer reaches. *)
Lemma toDouble_above k z :
  53 ≤ k → 2 ^ k ≤ Z.abs z → 2 ^ k ≤ Z.abs (toDouble z).
Proof.
  intros Hk Hz. unfold toDouble.
  assert (Hbase : 2 ^ 53 ≤ 2 ^ k) by (apply Z.pow_le_mono_r; lia).
  destruct (Z.ltb_spec (Z.abs z) (2 ^ 53)) as [|_]; [lia|].
  set (a := Z.abs z) in *.
  assert (Ha : 0 < a) by lia.
  destruct (Z.log2_spec a Ha) as [Hlow Hhigh].
  assert (Hlog : k ≤ Z.log2 a).
  { apply Z.log2_le_pow2; lia. }
  set (e := Z.log2 a - 52) in *.
  assert (Hpow : 2 ^ Z.log2 a = 2 ^ 52 * 2 ^ e).
  { unfold e. rewrite <- Z.pow_add_r by lia. f_equal. lia. }
  assert (He : 0 < 2 ^ e) by (apply Z.pow_pos_nonneg; lia).
  assert (Hq : 2 ^ 52 ≤ a / 2 ^ e).
  { apply Z.div_le_lower_bound; lia. }
  set (q := a / 2 ^ e) in *.
  set (significand := if a mod 2 ^ e <? 2 ^ (e - 1) then q
                      else if 2 ^ (e - 1) <? a mod 2 ^ e then q + 1
                      else if Z.even q then q else q + 1).
  assert (Hs : q ≤ significand).
  { unfold significand. repeat case_match; lia. }
  assert (Hz0 : Z.abs (Z.sgn z) = 1) by (unfold a in *; lia).
  rewrite Z.abs_mul, Hz0, Z.mul_1_l.
  assert (Hk' : 2 ^ k ≤ 2 ^ Z.log2 a) by (apply Z.pow_le_mono_r; lia).
  assert (2 ^ 52 * 2 ^ e ≤ significand * 2 ^ e) by nia.
  lia.
Qed.

Lemma toDouble_safe_inv x c : Z.abs x < 2 ^ 53 → toDouble c = x → c = x.
Proof.
  intros Hx Hc.
  destruct (Z.lt_ge_cases (Z.abs c) (2 ^ 53)) as [Hsmall|Hbig].
  - by rewrite toDouble_below in Hc.
  - apply (toDouble_above 53) in Hbig; lia.
Qed.

Lemma readsBack_safe x c : Z.abs x < 2 ^ 53 → readsBack x c = true → c = x.
Proof. intros Hx Hc. apply Z.eqb_eq in Hc. by apply toDouble_safe_inv. Qed.

Lemma decimalAt_safe x j c : Z.abs x < 2 ^ 53 → decimalAt x j = Some c → c = x.
Proof.
  intros Hx. unfold decimalAt.
  destruct (readsBack x (x / _ * _)) eqn:Hlo, (readsBack x (_ + _)) eqn:Hhi.
  all: intros Hc; simplify_eq.
  - apply (readsBack_safe x) in Hlo, Hhi; [|done..]. by repeat case_match.
  - by apply readsBack_safe.
  - by apply readsBack_safe.
Qed.

Lemma shortestDecimal_safe x j : Z.abs x < 2 ^ 53 → shortestDecimal x j = x.
Proof.
  intros Hx. induction j as [|j IH]; cbn [shortestDecimal].
  all: destruct (decimalAt x _) as [c|] eqn:Hc; [|done].
  all: by apply decimalAt_safe in Hc.
Qed.

Lemma numberToString_safe x : Z.abs x < 2 ^ 53 → numberToString x = pretty x.
Proof.
  intros Hx. unfold numberToString, positiveToString.
  assert (Hsmall : ∀ y, Z.abs y < 2 ^ 53 → (y <? 10 ^ 21) = true).
  { intros y Hy. apply Z.ltb_lt.
    assert (2 ^ 53 < 10 ^ 21) by reflexivity. lia. }
  destruct x as [|p|p].
  - done.
  - change (Z.pos p =? 0) with false. change (Z.pos p <? 0) with false.
    cbv iota. rewrite shortestDecimal_safe by done. by rewrite Hsmall.
  - change (Z.neg p =? 0) with false. change (Z.neg p <? 0) with true.
    cbv iota. change (- Z.neg p) with (Z.pos p).
    rewrite shortestDecimal_safe by (rewrite <- Z.abs_opp; exact Hx).
    rewrite Hsmall by (rewrite <- Z.abs_opp; exact Hx). done.
Qed.

Lemma numberOf_exact z : - 2 ^ 53 ≤ z ≤ 2 ^ 53 → numberOf z = IntFinite z.
Proof.
  intros Hz. unfold numberOf. rewrite toDouble_exact by done.
  destruct (Z.leb_spec (2 ^ 1024) (Z.abs z)) as [Hbig|]; [|done].
  assert (2 ^ 53 < 2 ^ 1024) by reflexivity. lia.
Qed.

Lemma Real_leb_integer (a b : Z) : Real_leb a b = (a <=? b).
Proof. unfold Real_leb, integer, Qle_bool. cbn. by rewrite !Z.mul_1_r. Qed.

Lemma Real_ltb_integer (a b : Z) : Real_ltb a b = (a <? b).
Proof. unfold Real_ltb. rewrite Real_leb_integer. apply eq_sym, Z.ltb_antisym. Qed.

(** ** The counting step *)

Lemma resetMinorCounts_cons n names counts :
  resetMinorCounts (n :: names) counts
  = resetMinorCounts names
      (match counts !! n with
       | Some entry => <[n := resetEntry entry]> counts
       | None => counts
       end).
Proof. done. Qed.

Lemma resetMinorCounts_notin names counts name :
  name ∉ names → resetMinorCounts names counts !! name = counts !! name.
Proof.
  revert counts. induction names as [|n names IH]; intros counts Hnotin; [done|].
  apply not_elem_of_cons in Hnotin as [Hne Hnotin].
  rewrite resetMinorCounts_cons, IH by done.
  destruct (counts !! n); [|done]. by rewrite lookup_insert_ne.
Qed.

Lemma resetMinorCounts_in names counts name :
  NoDup names → name ∈ names →
  resetMinorCounts names counts !! name = resetEntry <$> counts !! name.
Proof.
  revert counts. induction names as [|n names IH]; intros counts Hnodup Hin.
  { by apply elem_of_nil in Hin. }
  apply NoDup_cons in Hnodup as [Hfresh Hnodup].
  rewrite resetMinorCounts_cons.
  destruct (decide (name = n)) as [->|Hne].
  - rewrite resetMinorCounts_notin by done.
    destruct (counts !! n) as [entry|] eqn:Hn; [|by rewrite Hn].
    by rewrite lookup_insert_eq.
  - apply elem_of_cons in Hin as [?|Hin]; [done|].
    rewrite IH by done.
    destruct (counts !! n); [|done]. by rewrite lookup_insert_ne.
Qed.

Lemma headingNameList_drop_NoDup L : NoDup (drop L headingNameList).
Proof.
  eapply sublist_NoDup; [|apply sublist_drop].
  by apply (bool_decide_unpack _).
Qed.

Lemma elem_of_drop_headingNameList L name :
  name ∈ drop L headingNameList ↔ (L < name ≤ 6)%nat.
Proof.
  unfold headingNameList.
  do 6 (destruct L as [|L];
        [cbn; rewrite ?elem_of_cons, elem_of_nil; lia|]).
  rewrite drop_ge by (cbn; lia). rewrite elem_of_nil. lia.
Qed.

Lemma mapResult_Return {A B} (f : A → result B) (g : A → B) (l : list A) :
  (∀ a, a ∈ l → f a = Return (g a)) → mapResult f l = Return (map g l).
Proof.
  induction l as [|a l IH]; intros Hf; [done|]. cbn.
  rewrite Hf by apply list_elem_of_here. cbn.
  rewrite IH; [done|]. intros b Hb. apply Hf. by apply list_elem_of_further.
Qed.

Lemma getCurrent_present counts name :
  is_Some (counts !! name) → getCurrent counts name = Return (currentAt counts name).
Proof. intros [entry Hentry]. unfold getCurrent, currentAt. by rewrite Hentry. Qed.

Lemma counterString_complete separator counts L :
  (∀ name, (1 ≤ name ≤ L)%nat → is_Some (counts !! name)) →
  counterString separator counts L
  = Return (join separator
              (map (λ name, numberToString (currentAt counts name)) (seq 1 L))
            +:+ separator).
Proof.
  intros Hall. unfold counterString.
  rewrite (mapResult_Return _ (λ i, currentAt counts (S i))).
  - cbn. by rewrite <- seq_shift, !map_map.
  - intros i [_ Hi]%elem_of_seq. apply getCurrent_present, Hall. lia.
Qed.

Lemma nextEntry_exact entry :
  - 2 ^ 53 ≤ current entry < 2 ^ 53 → nextEntry entry = bumpEntry entry.
Proof.
  intros Hcurrent. unfold nextEntry, bumpEntry.
  by rewrite toDouble_exact by lia.
Qed.

(** With the context bound as [this], the body of the tree step is the
    counting step of the text renderer. *)
Lemma applyCurrentCountWith_bound ctx node separator :
  (1 ≤ level node ≤ 6)%nat →
  applyCurrentCountWith (Some ctx) node separator
  = '(counts, label) ← advance separator (scopedTagNames ctx) (currentCounts ctx)
                         (level node);
    Return ({| currentCounts := counts; scopedTagNames := scopedTagNames ctx |},
            prependLabel label node).
Proof.
  destruct node as [L html], ctx as [counts scoped]. cbn [level]. intros HL.
  unfold applyCurrentCountWith, advance, counterString.
  cbn [level innerHTML currentCounts scopedTagNames].
  assert (Hdrop : drop (Z.to_nat (indexOfHeading L + 1)) headingNameList
                  = drop L headingNameList).
  { do 7 (destruct L as [|L]; [try lia; reflexivity|]). lia. }
  assert (Htake : take (Z.to_nat (indexOfHeading L + 1)) headingNameList
                  = map S (seq 0 L)).
  { do 7 (destruct L as [|L]; [try lia; reflexivity|]). lia. }
  rewrite Hdrop, Htake.
  destruct (resetMinorCounts (drop L headingNameList) counts !! L) as [entry|];
    [|done].
  case_bool_decide; [|done].
  assert (Hmap : ∀ (f : nat → result Z) l,
            mapResult f (map S l) = mapResult (λ i, f (S i)) l).
  { intros f l. induction l as [|i l IH]; [done|]. cbn.
    destruct (f (S i)); [|done]. cbn. by rewrite IH. }
  rewrite Hmap. by destruct (mapResult _ _).
Qed.

(** C1, as the code has it.  One counting step at level [L] of a state that
    holds the six levels and whose counter at [L] is an integer from -2^53
    to 2^53 - 1: every deeper level takes its [reset] as [current] and 0 as
    [reset], [current] at [L] grows by exactly one, the shallower levels are
    untouched, and the label is the [current] of the levels 1 to [L], each
    as a string, joined with the separator and followed by one more
    separator when [L] is in scope, and absent otherwise.  The body of the
    tree step makes the same step, and writes the label before the content
    of the node, when it runs with the context as [this]. *)
Theorem advance_step (separator : string) (scoped : gset nat)
    (counts : gmap nat CounterEntry) (L : nat) :
  (1 ≤ L ≤ 6)%nat →
  complete counts →
  - 2 ^ 53 ≤ currentAt counts L < 2 ^ 53 →
  ∃ counts' label,
    advance separator scoped counts L = Return (counts', label)
    ∧ label = (if bool_decide (L ∈ scoped)
               then Some (join separator
                            (map (λ name, numberToString (currentAt counts' name))
                               (seq 1 L))
                          +:+ separator)
               else None)
    ∧ (∀ name, (L < name ≤ 6)%nat → counts' !! name = resetEntry <$> counts !! name)
    ∧ counts' !! L = bumpEntry <$> counts !! L
    ∧ (∀ name, (name < L)%nat → counts' !! name = counts !! name)
    ∧ (∀ html,
         applyCurrentCountWith
           (Some {| currentCounts := counts; scopedTagNames := scoped |})
           {| level := L; innerHTML := html |} separator
         = Return ({| currentCounts := counts'; scopedTagNames := scoped |},
                   prependLabel label {| level := L; innerHTML := html |})).
Proof.
  intros HL Hcomplete Hexact.
  destruct (Hcomplete L HL) as [entry Hentry].
  assert (HatL : resetMinorCounts (drop L headingNameList) counts !! L = Some entry).
  { rewrite resetMinorCounts_notin; [done|].
    rewrite elem_of_drop_headingNameList. lia. }
  assert (Hnext : nextEntry entry = bumpEntry entry).
  { apply nextEntry_exact. unfold currentAt in Hexact. by rewrite Hentry in Hexact. }
  set (counts' := <[L := bumpEntry entry]>
                    (resetMinorCounts (drop L headingNameList) counts)).
  set (label := if bool_decide (L ∈ scoped)
                then Some (join separator
                             (map (λ name, numberToString (currentAt counts' name))
                                (seq 1 L))
                           +:+ separator)
                else None).
  assert (Hadvance : advance separator scoped counts L = Return (counts', label)).
  { unfold advance. rewrite HatL. fold (nextEntry entry). rewrite Hnext.
    fold counts'. unfold label. case_bool_decide; [|done].
    rewrite counterString_complete; [done|].
    intros name Hname. unfold counts'. destruct (decide (name = L)) as [->|Hne].
    - rewrite lookup_insert_eq. eauto.
    - rewrite lookup_insert_ne by done.
      rewrite resetMinorCounts_notin; [apply Hcomplete; lia|].
      rewrite elem_of_drop_headingNameList. lia. }
  exists counts', label. split; [exact Hadvance|]. split; [done|].
  split; [|split; [|split]].
  - intros name Hname. unfold counts'. rewrite lookup_insert_ne by lia.
    apply resetMinorCounts_in; [apply headingNameList_drop_NoDup|].
    by apply elem_of_drop_headingNameList.
  - unfold counts'. by rewrite lookup_insert_eq, Hentry.
  - intros name Hname. unfold counts'. rewrite lookup_insert_ne by lia.
    apply resetMinorCounts_notin. rewrite elem_of_drop_headingNameList. lia.
  - intros html. rewrite applyCurrentCountWith_bound by done.
    cbn [level scopedTagNames currentCounts]. by rewrite Hadvance.
Qed.

Lemma zeroCounts_complete : complete zeroCounts.
Proof.
  intros name Hname.
  do 7 (destruct name as [|name]; [try lia; eexists; reflexivity|]). lia.
Defined.

Lemma advance_step_witness :
  complete zeroCounts
  ∧ - 2 ^ 53 ≤ currentAt zeroCounts 2 < 2 ^ 53
  ∧ ∃ counts' label,
      advance "." {[1%nat; 2%nat]} zeroCounts 2 = Return (counts', label)
      ∧ label = (if bool_decide (2%nat ∈ ({[1%nat; 2%nat]} : gset nat))
                 then Some (join "."
                              (map (λ name, numberToString (currentAt counts' name))
                                 (seq 1 2))
                            +:+ ".")
                 else None)
      ∧ (∀ name, (2 < name ≤ 6)%nat →
           counts' !! name = resetEntry <$> zeroCounts !! name)
      ∧ counts' !! 2%nat = bumpEntry <$> zeroCounts !! 2%nat
      ∧ (∀ name, (name < 2)%nat → counts' !! name = zeroCounts !! name)
      ∧ (∀ html,
           applyCurrentCountWith
             (Some {| currentCounts := zeroCounts;
                      scopedTagNames := {[1%nat; 2%nat]} |})
             {| level := 2; innerHTML := html |} "."
           = Return ({| currentCounts := counts';
                        scopedTagNames := {[1%nat; 2%nat]} |},
                     prependLabel label {| level := 2; innerHTML := html |})).
Proof.
  split; [exact zeroCounts_complete|]. split; [by vm_compute|].
  apply (advance_step "." {[1%nat; 2%nat]} zeroCounts 2);
    [lia | exact zeroCounts_complete | by vm_compute].
Defined.

(** C1 as stated fails from 2^53 on: the counters are doubles, and the sum
    of 2^53 and 1 is 2^53 again.  The signifier token [9007199254740993]
    seeds such a state: two headings in a row receive the same label. *)
Lemma advance_step_counterexample :
  complete saturatedCounts
  ∧ ¬ claimedStep "-" {[1%nat]} saturatedCounts 1
  ∧ (∃ counts',
       advance "-" {[1%nat]} saturatedCounts 1
       = Return (counts', Some "9007199254740992-")
       ∧ counts' !! 1%nat = saturatedCounts !! 1%nat)
  ∧ parseInt (Some "9007199254740993") = IntFinite (2 ^ 53)
  ∧ parseMarkdown twoTitles "-" (levelsOfTokens (λ _, 2 ^ 53 + 1))
    = Return "# 9007199254740992- a
# 9007199254740992- b".
Proof.
  split; [|split; [|split; [|split]]].
  - intros name Hname.
    do 7 (destruct name as [|name]; [try lia; vm_compute; eexists; reflexivity|]).
    lia.
  - intros (counts' & label & Hadvance & Hbump).
    vm_compute in Hadvance. injection Hadvance as <- <-.
    vm_compute in Hbump. discriminate Hbump.
  - eexists. split; vm_compute; reflexivity.
  - vm_compute. reflexivity.
  - vm_compute. reflexivity.
Qed.

(** ** The level-range resolver *)

Lemma buildHeadings_lookup start finish L :
  buildHeadings start finish !! L
  = if bool_decide (1 ≤ L ≤ 6)%nat
    then Some (isInRange (levelNum L) start finish) else None.
Proof.
  unfold buildHeadings, headingNameList. cbn [foldl].
  do 7 (destruct L as [|L]; [by simplify_map_eq|]).
  rewrite bool_decide_eq_false_2 by lia. by simplify_map_eq.
Qed.

Lemma isInRange_spec (value min max : Z) :
  isInRange (Some value) (Some min) (Some max) = bool_decide (min ≤ value ≤ max).
Proof.
  unfold isInRange, js_le, js_ge. rewrite !Real_leb_integer.
  case_bool_decide; [apply andb_true_intro; split; apply Z.leb_le; lia|].
  apply andb_false_iff.
  destruct (decide (min ≤ value)); [right|left]; apply Z.leb_gt; lia.
Qed.

Lemma js_gt_integer (a b : Z) : js_gt (Some a) (Some b) = (b <? a).
Proof. apply Real_ltb_integer. Qed.

(** The resolver on an object with two integer bounds, check by check. *)
Lemma validateAndGetHeadingRange_integers G start finish :
  validateAndGetHeadingRange G (LObject (BNum start) (BNum finish))
  = ((if finish <? start
      then report G (errorMessage "invalidHeadingLevelOrder") else Return tt) ;;
     (if negb (bool_decide (1 ≤ start ≤ 6)) || negb (bool_decide (1 ≤ finish ≤ 6))
      then report G (errorMessage "headingLevelRange") else Return tt) ;;
     Return (buildHeadings (Some start) (Some finish))).
Proof.
  unfold validateAndGetHeadingRange.
  cbn [isNumber toNumber negb orb mbind result_bind].
  rewrite js_gt_integer.
  destruct (if finish <? start then _ else _) as [[]|e]; [|done].
  cbn [mbind result_bind]. by rewrite !isInRange_spec.
Qed.

(** The resolver on an integer. *)
Lemma validateAndGetHeadingRange_integer G n :
  validateAndGetHeadingRange G (LPrim (JNum n))
  = ((if negb (bool_decide (1 ≤ n ≤ 6))
      then report G (errorMessage "headingLevelRange") else Return tt) ;;
     Return (buildHeadings (Some 1) (Some n))).
Proof.
  unfold validateAndGetHeadingRange. cbn [mbind result_bind].
  rewrite !isInRange_spec. by rewrite (bool_decide_eq_true_2 (1 ≤ 1 ≤ 6)) by lia.
Qed.

(** With numeric bounds and nothing to report, the resolver does not read
    the debug flag. *)
Lemma validateAndGetHeadingRange_object_valid G start finish :
  1 ≤ start ≤ 6 → 1 ≤ finish ≤ 6 → start ≤ finish →
  validateAndGetHeadingRange G (LObject (BNum start) (BNum finish))
  = Return (buildHeadings (Some start) (Some finish)).
Proof.
  intros Hs Hf Hsf. rewrite validateAndGetHeadingRange_integers.
  replace (finish <? start) with false by (symmetry; apply Z.ltb_ge; lia).
  by rewrite !bool_decide_eq_true_2 by lia.
Qed.

Lemma validateAndGetHeadingRange_number_valid G n :
  1 ≤ n ≤ 6 →
  validateAndGetHeadingRange G (LPrim (JNum n))
  = Return (buildHeadings (Some 1) (Some n)).
Proof.
  intros Hn. rewrite validateAndGetHeadingRange_integer.
  by rewrite !bool_decide_eq_true_2 by lia.
Qed.

(** C8.  On a valid level spec the resolver returns a table whose keys are
    the levels 1 to 6, with level [L] marked exactly when
    [start ≤ L ≤ finish]; a single number [n] gives the table of
    [{start: 1, finish: n}]. *)
Theorem resolver_valid_table (G : GlobalOptions) (start finish : Z) :
  1 ≤ start → start ≤ finish → finish ≤ 6 →
  ∃ table,
    validateAndGetHeadingRange G (LObject (BNum start) (BNum finish)) = Return table
    ∧ (∀ L, (1 ≤ L ≤ 6)%nat →
            table !! L = Some (bool_decide (start ≤ Z.of_nat L ≤ finish)))
    ∧ (∀ L, ¬ (1 ≤ L ≤ 6)%nat → table !! L = None)
    ∧ (start = 1 →
       validateAndGetHeadingRange G (LPrim (JNum finish)) = Return table).
Proof.
  intros H1 H2 H3. exists (buildHeadings (Some start) (Some finish)).
  split; [|split; [|split]].
  - apply validateAndGetHeadingRange_object_valid; lia.
  - intros L HL. rewrite buildHeadings_lookup, bool_decide_eq_true_2 by done.
    unfold levelNum. by rewrite isInRange_spec.
  - intros L HL. by rewrite buildHeadings_lookup, bool_decide_eq_false_2.
  - intros ->. apply validateAndGetHeadingRange_number_valid. lia.
Qed.

Lemma resolver_valid_table_witness :
  ∃ table,
    validateAndGetHeadingRange OptionsUnbound (LObject (BNum 1) (BNum 3)) = Return table
    ∧ (∀ L, (1 ≤ L ≤ 6)%nat →
            table !! L = Some (bool_decide (1 ≤ Z.of_nat L ≤ 3)))
    ∧ (∀ L, ¬ (1 ≤ L ≤ 6)%nat → table !! L = None)
    ∧ (1 = 1 →
       validateAndGetHeadingRange OptionsUnbound (LPrim (JNum 3)) = Return table).
Proof. apply (resolver_valid_table OptionsUnbound 1 3); lia. Defined.

Lemma resolveObject_inverted start finish :
  start > finish →
  resolveObject (OptionsDebug true) start finish = Throw InvertedRange.
Proof.
  intros Hgt. unfold resolveObject. rewrite validateAndGetHeadingRange_integers.
  by replace (finish <? start) with true by (symmetry; apply Z.ltb_lt; lia).
Qed.

Lemma resolveObject_outside G start finish :
  start ≤ finish → ¬ boundsInRange start finish →
  resolveObject G start finish
  = (report G (errorMessage "headingLevelRange") ;;
     Return (buildHeadings (Some start) (Some finish))).
Proof.
  intros Hle Hout. unfold resolveObject. rewrite validateAndGetHeadingRange_integers.
  replace (finish <? start) with false by (symmetry; apply Z.ltb_ge; lia).
  unfold boundsInRange in Hout.
  destruct (decide (1 ≤ start ≤ 6)).
  - rewrite (bool_decide_eq_true_2 (1 ≤ start ≤ 6)) by done.
    by rewrite (bool_decide_eq_false_2 (1 ≤ finish ≤ 6)) by tauto.
  - by rewrite (bool_decide_eq_false_2 (1 ≤ start ≤ 6)) by done.
Qed.

Lemma resolveObject_silent start finish :
  resolveObject (OptionsDebug false) start finish
  = Return (buildHeadings (Some start) (Some finish)).
Proof.
  unfold resolveObject. rewrite validateAndGetHeadingRange_integers.
  destruct (finish <? start); cbn;
    by destruct (negb _ || negb _).
Qed.

(** The message key read on the out-of-range path is not a key of
    [errorMessage], so the resolver never raises the out-of-range message. *)
Lemma resolver_never_OutOfRange G input :
  validateAndGetHeadingRange G input ≠ Throw OutOfRange.
Proof.
  unfold validateAndGetHeadingRange.
  destruct input as [[| |b|n|s]|x|start finish], G as [| |[]];
    cbn -[isInRange js_gt]; try done;
    repeat (match goal with |- context [if ?c then _ else _] => destruct c end;
            cbn -[isInRange js_gt]; try done).
Qed.

(** C7.  The resolver never fails with [OutOfRange]: on that path it reads
    the key [headingLevelRange], which [errorMessage] does not have.  At
    [{start: 1, finish: 7}] it throws an error without message when errors
    are raised, a [ReferenceError] when [options] is not in scope, and
    returns a table when errors are silenced; so it does on every pair of
    ordered integer bounds one of which lies outside 1..6, and the error
    without message is also what a [NaN] bound gives.  [InvertedRange] is
    raised as claimed at [{start: 3, finish: 2}], and also at
    [{start: 7, finish: 3}], where the order check comes before the range
    check. *)
Theorem resolver_out_of_range :
  (∀ G input, validateAndGetHeadingRange G input ≠ Throw OutOfRange)
  ∧ resolveObject (OptionsDebug true) 1 7 = Throw (Error None)
  ∧ resolveObject OptionsUnbound 1 7 = Throw (ReferenceError "options")
  ∧ resolveObject (OptionsDebug false) 1 7 = Return (buildHeadings (Some 1) (Some 7))
  ∧ (∀ start finish : Z,
       start ≤ finish → ¬ boundsInRange start finish →
       resolveObject (OptionsDebug true) start finish = Throw (Error None))
  ∧ validateAndGetHeadingRange (OptionsDebug true)
      (LObject (BNonInteger NaN) (BNum 3)) = Throw (Error None)
  ∧ resolveObject (OptionsDebug true) 3 2 = Throw InvertedRange
  ∧ resolveObject (OptionsDebug true) 7 3 = Throw InvertedRange.
Proof.
  split; [apply resolver_never_OutOfRange|].
  split; [by rewrite resolveObject_outside by (unfold boundsInRange; lia)|].
  split; [by rewrite resolveObject_outside by (unfold boundsInRange; lia)|].
  split; [by rewrite resolveObject_silent|].
  split; [intros start finish Hle Hout; by rewrite resolveObject_outside|].
  split; [by vm_compute|].
  split; apply resolveObject_inverted; lia.
Qed.

(** ** Counter-state construction *)

Lemma report_levels_not_Malformed G e :
  report G (errorMessage "invalidHeadingLevels") = Throw e →
  e ≠ MalformedSignifier.
Proof. destruct G as [| |[]]; vm_compute; intros [= <-]; by intros [=]. Qed.

Lemma getStartingValues_not_Malformed G headerNumbers separator :
  getStartingValues G headerNumbers separator ≠ Throw MalformedSignifier.
Proof.
  unfold getStartingValues.
  destruct (negb _); [|done].
  destruct (report G (errorMessage "invalidHeadingLevels")) as [[]|e] eqn:Hreport.
  - done.
  - apply report_levels_not_Malformed in Hreport. cbn. congruence.
Qed.

(** C5.  Counter-state construction never fails with [MalformedSignifier].
    On the mixed signifier [1-A] it fails with the message of
    [invalidHeadingLevels] when errors are raised, with a [ReferenceError]
    when [options] is not in scope, and not at all when errors are
    silenced: the tokens are then padded with ["A"]. *)
Theorem mixed_signifier_failure :
  (∀ G headerNumbers separator,
     getStartingValues G headerNumbers separator ≠ Throw MalformedSignifier)
  ∧ forallb isAllNumeric (map trim (split "-" "1-A")) = false
  ∧ forallb isAllAlphabetic (map trim (split "-" "1-A")) = false
  ∧ getStartingValues (OptionsDebug true) "1-A" "-" = Throw InvalidLevelType
  ∧ getStartingValues OptionsUnbound "1-A" "-" = Throw (ReferenceError "options")
  ∧ getStartingValues (OptionsDebug false) "1-A" "-"
    = Return (buildStartingValues ["1"; "A"; "A"; "A"; "A"; "A"]).
Proof.
  split; [apply getStartingValues_not_Malformed|].
  by vm_compute.
Qed.

Lemma parseIntString_alphabetic tok :
  isAllAlphabetic tok = true → parseIntString tok = IntNaN.
Proof.
  destruct tok as [|c rest]; [done|].
  unfold isAllAlphabetic. cbn [allChars String.eqb negb andb].
  destruct (isLetter c) eqn:Hc; [intros _|done].
  destruct c as [[] [] [] [] [] [] [] []]; try discriminate Hc; reflexivity.
Qed.

Lemma seedEntry_alphabetic range tok :
  isAllAlphabetic tok = true →
  seedEntry {| inScope := range; counter := Some tok |}
  = {| reset := 0; current := 0 |}.
Proof.
  intros Htok. unfold seedEntry, parseInt. cbn.
  by rewrite parseIntString_alphabetic.
Qed.

Lemma buildStartingValues_lookup elements name :
  buildStartingValues elements !! name
  = if bool_decide (1 ≤ name ≤ 6)%nat
    then Some (elements !! (name - 1)%nat) else None.
Proof.
  unfold buildStartingValues. cbn [foldl seq].
  do 7 (destruct name as [|name]; [by simplify_map_eq|]).
  rewrite bool_decide_eq_false_2 by lia. by simplify_map_eq.
Qed.

Lemma padElements_lookup pad elements i :
  (i < 6)%nat →
  ∃ tok, padElements pad elements !! i = Some tok ∧ (tok ∈ elements ∨ tok = pad).
Proof.
  intros Hi. unfold padElements.
  destruct (decide (i < List.length elements)%nat) as [Hlt|Hge].
  - destruct (lookup_lt_is_Some_2 elements i Hlt) as [tok Htok].
    exists tok. rewrite lookup_app_l by done. split; [done|].
    left. by eapply list_elem_of_lookup_2.
  - exists pad. split; [|by right].
    rewrite lookup_app_r by lia. apply lookup_replicate_2. lia.
Qed.

Lemma mergeConfiguration_lookup headingRanges startingHeadingValues name :
  mergeConfiguration headingRanges startingHeadingValues !! name
  = (λ range, {| inScope := range;
                 counter := mjoin (startingHeadingValues !! name) |})
    <$> headingRanges !! name.
Proof.
  unfold mergeConfiguration. rewrite map_lookup_imap.
  by destruct (headingRanges !! name).
Qed.

Lemma seedEntry_padded range pad elements i tok :
  forallb isAllAlphabetic elements = true →
  pad = "1" ∨ pad = "A" →
  padElements pad elements !! i = Some tok →
  seedEntry {| inScope := range; counter := Some tok |} = zeroEntry.
Proof.
  intros Hall Hpad Hi.
  assert (Htok : tok ∈ elements ∨ tok = pad).
  { unfold padElements in Hi. apply lookup_app_Some in Hi as [Hi|[_ Hi]].
    - left. by eapply list_elem_of_lookup_2.
    - right. by apply lookup_replicate_1 in Hi as [-> _]. }
  destruct Htok as [Hin| ->].
  - apply seedEntry_alphabetic.
    rewrite forallb_forall in Hall. by apply Hall, list_elem_of_In.
  - by destruct Hpad as [-> | ->].
Qed.

(** C6, as the code has it.  A signifier whose tokens are all alphabetic is
    accepted, but every level is seeded with the integer 0 for [reset] and
    [current], so the first label of a level-1 heading in scope is ["1"]
    followed by the separator: the counters are integers, not letters. *)
Theorem alphabetic_signifier_counts_numerically (G : GlobalOptions)
    (headerNumbers sep : string) (start finish : option Real) :
  forallb isAllAlphabetic (map trim (split sep headerNumbers)) = true →
  ∃ startingValues,
    getStartingValues G headerNumbers sep = Return startingValues
    ∧ (∀ name, (1 ≤ name ≤ 6)%nat →
         currentCounts
           (createCountContextObjects
              (mergeConfiguration (buildHeadings start finish) startingValues))
         !! name = Some zeroEntry)
    ∧ (∀ separator scoped, 1%nat ∈ scoped →
         ∃ counts',
           advance separator scoped
             (currentCounts
                (createCountContextObjects
                   (mergeConfiguration (buildHeadings start finish) startingValues)))
             1
           = Return (counts', Some ("1" +:+ separator))).
Proof.
  intros Hall. unfold getStartingValues. rewrite Hall, orb_true_r. cbn [negb].
  set (elements := padElements _ _).
  exists (buildStartingValues elements).
  assert (Hseed : ∀ name, (1 ≤ name ≤ 6)%nat →
            currentCounts
              (createCountContextObjects
                 (mergeConfiguration (buildHeadings start finish)
                    (buildStartingValues elements)))
            !! name = Some zeroEntry).
  { intros name Hname. cbn [currentCounts createCountContextObjects].
    rewrite lookup_fmap, mergeConfiguration_lookup.
    rewrite buildHeadings_lookup, buildStartingValues_lookup.
    rewrite !bool_decide_eq_true_2 by done. cbn.
    destruct (padElements_lookup
                (if forallb isAllNumeric (map trim (split sep headerNumbers))
                 then "1" else "A")
                (map trim (split sep headerNumbers)) (name - 1)) as (tok & Htok & _);
      [lia|].
    fold elements in Htok. rewrite Htok. f_equal.
    eapply seedEntry_padded; [exact Hall| |exact Htok].
    destruct (forallb isAllNumeric _); auto. }
  split; [done|]. split; [exact Hseed|].
  intros separator scoped Hscoped.
  set (counts := currentCounts _) in *.
  assert (Hone : resetMinorCounts (drop 1 headingNameList) counts !! 1%nat
                 = Some zeroEntry).
  { rewrite resetMinorCounts_notin; [apply Hseed; lia|].
    rewrite elem_of_drop_headingNameList. lia. }
  eexists. unfold advance. rewrite Hone, bool_decide_eq_true_2 by done.
  rewrite counterString_complete.
  - cbn [seq map join String.concat]. unfold currentAt.
    by rewrite lookup_insert_eq.
  - intros name Hname. replace name with 1%nat by lia.
    rewrite lookup_insert_eq. eauto.
Qed.

(** ** The text renderer *)

Lemma replaceChunks_labels separator scoped chunks counts :
  replaceChunks separator scoped chunks counts
  = labels ← labelsRun separator scoped counts (chunkLevels chunks);
    Return (renderWith chunks labels).
Proof.
  revert counts. induction chunks as [|[c|hashes space text] chunks IH]; intros counts.
  - done.
  - cbn [replaceChunks chunkLevels renderWith]. rewrite IH.
    by destruct (labelsRun _ _ _ _).
  - cbn [replaceChunks chunkLevels labelsRun]. unfold replaceHeading.
    destruct (advance separator scoped counts (String.length hashes))
      as [[counts' [label|]]|e]; cbn; [| |done].
    + rewrite IH. by destruct (labelsRun _ _ _ _).
    + rewrite IH. by destruct (labelsRun _ _ _ _).
Qed.

Lemma parseMarkdown_labels markdown separator levels :
  parseMarkdown markdown separator levels
  = labels ← labelsRun separator
               (scopedTagNames (createCountContextObjects levels))
               (currentCounts (createCountContextObjects levels))
               (chunkLevels (scanHeadings markdown));
    Return (renderWith (scanHeadings markdown) labels).
Proof. apply replaceChunks_labels. Qed.

(** C4.  The signifier tokens ["1"], ["1"] split on ["-"], with the level
    spec [6], seed every level with [current = reset = 1 - 1]; on a text
    whose heading matches have the levels 1, 2, 2, 1, 2 the text renderer
    writes the labels ["1-"], ["1-1-"], ["1-2-"], ["2-"], ["2-1-"] in that
    order. *)
Theorem text_renderer_outline (G : GlobalOptions) (markdown : string) :
  chunkLevels (scanHeadings markdown) = [1; 2; 2; 1; 2]%nat →
  (ranges ← validateAndGetHeadingRange G (LPrim (JNum 6));
   startingValues ← getStartingValues G "1-1" "-";
   Return (mergeConfiguration ranges startingValues)) = Return levelsOneOne
  ∧ (∀ name, (1 ≤ name ≤ 6)%nat →
       currentCounts (createCountContextObjects levelsOneOne) !! name
       = Some {| reset := 1 - 1; current := 1 - 1 |})
  ∧ labelsRun "-" (scopedTagNames (createCountContextObjects levelsOneOne))
      (currentCounts (createCountContextObjects levelsOneOne))
      (chunkLevels (scanHeadings markdown))
    = Return outlineLabels
  ∧ parseMarkdown markdown "-" levelsOneOne
    = Return (renderWith (scanHeadings markdown) outlineLabels).
Proof.
  intros Hlevels.
  assert (Hrun : labelsRun "-" (scopedTagNames (createCountContextObjects levelsOneOne))
            (currentCounts (createCountContextObjects levelsOneOne))
            (chunkLevels (scanHeadings markdown)) = Return outlineLabels).
  { rewrite Hlevels. by vm_compute. }
  split; [|split; [|split]].
  - rewrite validateAndGetHeadingRange_number_valid by lia. done.
  - intros name Hname.
    do 7 (destruct name as [|name]; [try lia; by vm_compute|]). lia.
  - exact Hrun.
  - by rewrite parseMarkdown_labels, Hrun.
Qed.

Lemma text_renderer_outline_witness :
  chunkLevels (scanHeadings outlineDocument) = [1; 2; 2; 1; 2]%nat
  ∧ parseMarkdown outlineDocument "-" levelsOneOne
    = Return "# 1- a
## 1-1- b
## 1-2- c
# 2- d
## 2-1- e".
Proof.
  split; [reflexivity|].
  apply (text_renderer_outline OptionsUnbound outlineDocument). reflexivity.
Defined.

(** ** The tree renderer *)

(** The arrow function never sees the context handed to [call]. *)
Lemma applyCurrentCountThroughBoundContext_throws thisArg node separator :
  applyCurrentCountThroughBoundContext thisArg node separator = Throw TypeError.
Proof. done. Qed.

Lemma applyScopedHeadingCountsHtml_throws levels separator node nodes :
  applyScopedHeadingCountsHtml levels separator (node :: nodes)
  = (node :: nodes, Some TypeError).
Proof. done. Qed.

(** C2.  The tree step throws a [TypeError] on every heading before it
    reads a counter, so the tree renderer labels nothing: on the one-heading
    document where the text renderer writes ["1-"], the heading node keeps
    its content and the loop ends with the exception. *)
Theorem tree_renderer_diverges :
  (∀ thisArg node separator,
     applyCurrentCountThroughBoundContext thisArg node separator = Throw TypeError)
  ∧ chunkLevels (scanHeadings "# a") = [level {| level := 1; innerHTML := "a" |}]
  ∧ parseMarkdown "# a" "-" levelsOneOne = Return "# 1- a"
  ∧ applyScopedHeadingCountsHtml levelsOneOne "-" [{| level := 1; innerHTML := "a" |}]
    = ([{| level := 1; innerHTML := "a" |}], Some TypeError).
Proof.
  split; [apply applyCurrentCountThroughBoundContext_throws|].
  by vm_compute.
Qed.

Lemma forEachHeadingBound_labels ctx separator nodes labels :
  Forall (λ node, (1 ≤ level node ≤ 6)%nat) nodes →
  labelsRun separator (scopedTagNames ctx) (currentCounts ctx) (map level nodes)
  = Return labels →
  forEachHeadingBound ctx separator nodes
  = (zip_with prependLabel labels nodes, None).
Proof.
  intros Hnodes. revert ctx labels.
  induction Hnodes as [|node nodes Hnode _ IH]; intros ctx labels Hrun.
  { by injection Hrun as <-. }
  cbn [map labelsRun forEachHeadingBound] in *.
  rewrite applyCurrentCountWith_bound by done.
  destruct (advance _ _ _ _) as [[counts label]|e]; [|done]. cbn in *.
  destruct (labelsRun separator (scopedTagNames ctx) counts (map level nodes))
    as [rest|e] eqn:Hrest; [|done].
  injection Hrun as <-.
  by rewrite (IH {| currentCounts := counts; scopedTagNames := scopedTagNames ctx |} rest).
Qed.

(** ** The first hook *)

Lemma checkAutoHeader_missing G markdown :
  matchAutoHeader (trim markdown) = None →
  raises (checkAutoHeader G markdown).
Proof.
  intros Hnone. unfold checkAutoHeader. rewrite Hnone.
  destruct G as [| |[]]; by eexists.
Qed.

Lemma beforeEachTry_missing G defaultLevels options markdown :
  matchAutoHeader (trim markdown) = None →
  raises (beforeEachTry G defaultLevels options markdown).
Proof.
  intros Hnone. unfold beforeEachTry.
  destruct (checkAutoHeader_missing G markdown Hnone) as [e ->]. by exists e.
Qed.

Lemma beforeEachTry_Return G defaultLevels options markdown options' cleaned :
  beforeEachTry G defaultLevels options markdown = Return (options', cleaned) →
  cleaned = stripFirstLine markdown
  ∧ shouldContinue options' = true
  ∧ separator options' = separator options
  ∧ debug options' = debug options.
Proof.
  unfold beforeEachTry.
  destruct (checkAutoHeader G markdown) as [signifier|]; [cbn|done].
  destruct (if String.eqb signifier "" then _ else _); [cbn|done].
  destruct (validateAndGetHeadingRange G defaultLevels); [cbn|done].
  destruct (getStartingValues G signifier (separator options)); [cbn|done].
  by intros [= <- <-].
Qed.

(** The tree step throws before it touches a node, the exception is
    caught, and a value without [querySelectorAll] fails the same way: the
    [afterEach] hook that is let through hands [undefined] on and leaves
    its input as it was. *)
Lemma afterEachRender_silent options html :
  debug options = false →
  afterEachRender options html = (html, Return None).
Proof.
  intros Hdebug. unfold afterEachRender. rewrite Hdebug, andb_false_r.
  unfold applyScopedHeadingCounts. cbn [String.eqb Ascii.eqb Bool.eqb].
  by destruct html as [|text|[|node nodes]].
Qed.

(** C3, as the code has it.  With [debug] false, a page without signifier
    and every other page on which the [try] block of the first hook fails
    pass through the pipeline without an exception: the first hook clears
    [shouldContinue], leaves the other options as they were and hands
    [undefined] on, the second [beforeEach] hook hands [undefined] on in
    turn, and the [afterEach] hook hands [undefined] on and leaves the tree
    it receives untouched. *)
Theorem pipeline_on_failure (G : GlobalOptions) (defaultLevels : LevelsInput)
    (options : Options) (markdown : string) :
  debug options = false →
  matchAutoHeader (trim markdown) = None
  ∨ raises (beforeEachTry G defaultLevels options markdown) →
  beforeEachSignifier G defaultLevels options markdown
  = Return (setShouldContinue false options, None)
  ∧ beforeEachHooks G defaultLevels options markdown
    = Return (setShouldContinue false options, None)
  ∧ ∀ html,
      afterEachRender (setShouldContinue false options) html = (html, Return None).
Proof.
  intros Hdebug Hfailure.
  assert (Hraises : raises (beforeEachTry G defaultLevels options markdown)).
  { destruct Hfailure as [Hmissing|Hraises]; [|done].
    by apply beforeEachTry_missing. }
  destruct Hraises as [e Htry].
  assert (Hfirst : beforeEachSignifier G defaultLevels options markdown
                   = Return (setShouldContinue false options, None)).
  { unfold beforeEachSignifier. by rewrite Htry. }
  split; [exact Hfirst|]. split.
  - unfold beforeEachHooks. rewrite Hfirst. cbn [mbind result_bind].
    unfold beforeEachRender, showErrorMessage.
    cbn [shouldContinue setShouldContinue debug negb]. by rewrite Hdebug.
  - intros html. by apply afterEachRender_silent.
Qed.

Lemma pipeline_on_failure_witness :
  debug (pageOptions false) = false
  ∧ (matchAutoHeader (trim untitledPage) = None
     ∨ raises (beforeEachTry OptionsUnbound (LPrim (JNum 6)) (pageOptions false)
                 untitledPage))
  ∧ beforeEachSignifier OptionsUnbound (LPrim (JNum 6)) (pageOptions false) untitledPage
    = Return (setShouldContinue false (pageOptions false), None)
  ∧ beforeEachHooks OptionsUnbound (LPrim (JNum 6)) (pageOptions false) untitledPage
    = Return (setShouldContinue false (pageOptions false), None)
  ∧ ∀ html,
      afterEachRender (setShouldContinue false (pageOptions false)) html
      = (html, Return None).
Proof.
  split; [reflexivity|]. split; [left; reflexivity|].
  apply (pipeline_on_failure OptionsUnbound (LPrim (JNum 6)) (pageOptions false)
           untitledPage); [reflexivity|left; reflexivity].
Defined.

(** C3 as stated fails on a page without signifier: with [debug = false]
    the pipeline hands [undefined] on, not the page, whether [options] is in
    scope of the helpers or not.  With errors silenced a mixed signifier
    and an inverted level range are no failures at all: the page goes on
    without its first line, labelled where the level table marks a level. *)
Lemma pipeline_counterexample :
  ¬ claimedPassthrough (OptionsDebug false) (LPrim (JNum 6)) (pageOptions false)
      untitledPage
  ∧ ¬ claimedPassthrough OptionsUnbound (LPrim (JNum 6)) (pageOptions false)
        untitledPage
  ∧ handedToNext (beforeEachHooks (OptionsDebug false) (LPrim (JNum 6))
                    (pageOptions false) untitledPage) = Return None
  ∧ handedToNext (beforeEachHooks (OptionsDebug false) (LPrim (JNum 6))
                    (pageOptions false) mixedPage) = Return (Some "# 1- Title")
  ∧ handedToNext (beforeEachHooks (OptionsDebug false) (LObject (BNum 3) (BNum 2))
                    (pageOptions false) plainPage) = Return (Some "# Title").
Proof.
  split; [|split; [|by vm_compute]].
  - intros Hclaim.
    assert (Hraises : raises (beforeEachTry (OptionsDebug false) (LPrim (JNum 6))
                                (pageOptions false) untitledPage))
      by (by exists TypeError).
    specialize (Hclaim eq_refl Hraises). by vm_compute in Hclaim.
  - intros Hclaim.
    assert (Hraises : raises (beforeEachTry OptionsUnbound (LPrim (JNum 6))
                                (pageOptions false) untitledPage))
      by (by exists (ReferenceError "options")).
    specialize (Hclaim eq_refl Hraises). by vm_compute in Hclaim.
Qed.

(** ** Stripping the first line *)

(** [String.app] does not unfold under [simpl]: its two equations. *)
Ltac app_step :=
  repeat match goal with
         | |- context [String ?c ?s +:+ ?t] =>
             change (String c s +:+ t) with (String c (s +:+ t))
         | |- context [EmptyString +:+ ?t] => change (EmptyString +:+ t) with t
         end.

Lemma string_app_nil_r s : s +:+ "" = s.
Proof. induction s as [|c s IH]; [done|]. app_step. by rewrite IH. Qed.

Lemma rev_app_app s1 s2 s3 :
  String.rev_app s1 s2 +:+ s3 = String.rev_app s1 (s2 +:+ s3).
Proof.
  revert s2. induction s1 as [|c s1 IH]; intros s2; [done|].
  cbn [String.rev_app]. by rewrite IH.
Qed.

Lemma startsWith_newline c rest :
  startsWith newline (String c rest) = Ascii.eqb "010" c.
Proof.
  unfold startsWith, newline. cbn [stripPrefix].
  change (ascii_of_nat 10) with "010"%char.
  by destruct (Ascii.eqb "010" c).
Qed.

Lemma newline_app rest : newline +:+ rest = String "010" rest.
Proof. done. Qed.

Lemma splitGo_nonempty sep s skip cur : splitGo sep s skip cur ≠ [].
Proof.
  revert skip cur. induction s as [|c s IH]; intros skip cur; [done|]. cbn [splitGo].
  destruct skip; [|apply IH]. destruct (startsWith sep _); [done|apply IH].
Qed.

Lemma join_cons sep x l : l ≠ [] → join sep (x :: l) = x +:+ sep +:+ join sep l.
Proof. by destruct l. Qed.

(** Splitting on line feeds and joining again gives the text back. *)
Lemma join_splitGo_newline s cur :
  join newline (splitGo newline s 0 cur) = String.rev cur +:+ s.
Proof.
  revert cur. induction s as [|c s IH]; intros cur.
  - rewrite string_app_nil_r. done.
  - cbn [splitGo]. rewrite startsWith_newline.
    destruct (Ascii.eqb_spec "010" c) as [<-|Hc].
    + rewrite join_cons by apply splitGo_nonempty.
      change (String.length newline - 1)%nat with 0%nat. by rewrite IH.
    + rewrite IH. unfold String.rev. cbn [String.rev_app].
      rewrite !rev_app_app. by app_step.
Qed.

Lemma splitGo_first_line first rest cur :
  allChars notLineFeed first = true →
  splitGo newline (first +:+ newline +:+ rest) 0 cur
  = String.rev (String.rev_app first cur) :: splitGo newline rest 0 "".
Proof.
  revert cur. induction first as [|c first IH]; intros cur Hfirst.
  - app_step. rewrite newline_app.
    cbn [splitGo]. by rewrite startsWith_newline.
  - cbn in Hfirst. apply andb_true_iff in Hfirst as [Hc Hfirst].
    app_step. cbn [splitGo]. rewrite startsWith_newline.
    unfold notLineFeed in Hc. apply negb_true_iff in Hc. rewrite Hc.
    by rewrite IH.
Qed.

Lemma splitGo_one_line s cur :
  allChars notLineFeed s = true →
  splitGo newline s 0 cur = [String.rev (String.rev_app s cur)].
Proof.
  revert cur. induction s as [|c s IH]; intros cur Hs; [done|].
  cbn in Hs. apply andb_true_iff in Hs as [Hc Hs].
  cbn [splitGo]. rewrite startsWith_newline.
  unfold notLineFeed in Hc. apply negb_true_iff in Hc. rewrite Hc.
  by rewrite IH.
Qed.

Lemma split_newline s : split newline s = splitGo newline s 0 "".
Proof. done. Qed.

Lemma stripFirstLine_lines first rest :
  allChars notLineFeed first = true →
  stripFirstLine (first +:+ newline +:+ rest) = rest.
Proof.
  intros Hfirst. unfold stripFirstLine.
  rewrite split_newline, splitGo_first_line by done.
  rewrite skipn_cons, drop_0. by rewrite join_splitGo_newline.
Qed.

Lemma stripFirstLine_one_line s :
  allChars notLineFeed s = true → stripFirstLine s = "".
Proof.
  intros Hs. unfold stripFirstLine.
  by rewrite split_newline, splitGo_one_line.
Qed.

(** C9, as the code has it.  Whenever the first hook hands a text on, the
    text is the input without its first line: what follows the first line
    feed of the untrimmed input, or nothing when the input is a single
    line.  The other lines are unchanged. *)
Theorem first_hook_removes_first_line (G : GlobalOptions)
    (defaultLevels : LevelsInput) (options options' : Options)
    (markdown passed : string) :
  beforeEachSignifier G defaultLevels options markdown
  = Return (options', Some passed) →
  passed = stripFirstLine markdown
  ∧ (∀ first rest,
       allChars notLineFeed first = true →
       markdown = first +:+ newline +:+ rest → passed = rest)
  ∧ (allChars notLineFeed markdown = true → passed = "").
Proof.
  unfold beforeEachSignifier.
  destruct (beforeEachTry G defaultLevels options markdown)
    as [[options'' cleaned]|e] eqn:Htry; [|done].
  intros [= <- <-]. apply beforeEachTry_Return in Htry as [-> _].
  split; [done|]. split.
  - intros first rest Hfirst ->. by apply stripFirstLine_lines.
  - apply stripFirstLine_one_line.
Qed.

Lemma first_hook_removes_first_line_witness :
  beforeEachSignifier OptionsUnbound (LPrim (JNum 6)) (pageOptions true) plainPage
  = Return (labelledOptions, Some "# Title")
  ∧ "# Title" = stripFirstLine plainPage
  ∧ (∀ first rest,
       allChars notLineFeed first = true →
       plainPage = first +:+ newline +:+ rest → "# Title" = rest)
  ∧ (allChars notLineFeed plainPage = true → "# Title" = "").
Proof.
  split; [by vm_compute|].
  apply (first_hook_removes_first_line OptionsUnbound (LPrim (JNum 6))
           (pageOptions true) labelledOptions plainPage "# Title").
  by vm_compute.
Defined.

(** C9 as stated fails when a line break precedes the signifier: the
    parser, which trims, accepts the page, the line removed is the empty
    first line, and the text handed on still starts with the signifier.
    It also fails when a later step of the hook throws: the parser accepts
    the mixed signifier, and nothing is handed on. *)
Lemma first_hook_removes_first_line_counterexample :
  checkAutoHeader OptionsUnbound leadingBlankPage = Return "1"
  ∧ handedToNext (beforeEachSignifier OptionsUnbound (LPrim (JNum 6))
                    (pageOptions true) leadingBlankPage)
    = Return (Some plainPage)
  ∧ checkAutoHeader OptionsUnbound plainPage = Return "1"
  ∧ checkAutoHeader (OptionsDebug true) mixedPage = Return "1-A"
  ∧ handedToNext (beforeEachSignifier (OptionsDebug true) (LPrim (JNum 6))
                    (pageOptions true) mixedPage)
    = Return None.
Proof. by vm_compute. Qed.

(** ** Option normalisation *)

Lemma pretty_N_go_head x s :
  (0 < x)%N → ∃ d rest, pretty_N_go x s = String (pretty_N_char d) rest.
Proof.
  revert s. induction (N.lt_wf_0 x) as [x _ IH]. intros s Hx.
  rewrite pretty_N_go_step by done.
  destruct (N.eq_0_gt_0_cases (x `div` 10)) as [->|Hdiv].
  - rewrite pretty_N_go_0. eauto.
  - apply IH; [|done]. by apply N.div_lt.
Qed.

(** The decimal numeral of an integer starts with a digit or a minus sign. *)
Lemma pretty_Z_head (n : Z) :
  ∃ c rest, pretty n = String c rest ∧ (isDigit c || Ascii.eqb c "-" = true).
Proof.
  assert (Hpos : ∀ p : positive, ∃ d rest, pretty p = String (pretty_N_char d) rest).
  { intros p. unfold pretty, pretty_positive, pretty, pretty_N.
    rewrite decide_False by done. apply pretty_N_go_head. lia. }
  assert (Hchar : ∀ d, isDigit (pretty_N_char d) = true).
  { intros d. unfold pretty_N_char. by repeat case_match. }
  destruct n as [|p|p].
  - by exists "0"%char, "".
  - destruct (Hpos p) as (d & rest & Hp). exists (pretty_N_char d), rest.
    split; [done|]. by rewrite Hchar.
  - destruct (Hpos p) as (d & rest & Hp). by exists "-"%char, (pretty p).
Qed.

Lemma numeral_not_a_name c rest :
  isDigit c || Ascii.eqb c "-" = true →
  assoc (String c rest) separatorMap = None
  ∧ isObjectPrototypeName (String c rest) = false.
Proof.
  intros Hc.
  destruct c as [[] [] [] [] [] [] [] []]; try discriminate Hc; by split.
Qed.

Lemma dropTrailingZeros_head c rest :
  dropTrailingZeros (String c rest) = EmptyString
  ∨ ∃ rest', dropTrailingZeros (String c rest) = String c rest'.
Proof.
  cbn [dropTrailingZeros]. destruct (dropTrailingZeros rest); [|eauto].
  destruct (Ascii.eqb c "0"); eauto.
Qed.

(** A number as a string starts with a digit or a minus sign, in the
    exponent form too. *)
Lemma numberToString_head (n : Z) :
  ∃ c rest, numberToString n = String c rest ∧ (isDigit c || Ascii.eqb c "-" = true).
Proof.
  assert (Hpositive : ∀ x, ∃ c rest,
            positiveToString x = String c rest
            ∧ (isDigit c || Ascii.eqb c "-" = true)).
  { intros x. unfold positiveToString.
    set (decimal := shortestDecimal _ _).
    destruct (decimal <? 10 ^ 21); [apply pretty_Z_head|].
    unfold exponentForm.
    destruct (pretty_Z_head decimal) as (c & rest & -> & Hc).
    destruct (dropTrailingZeros_head c rest) as [->|[rest' ->]]; [by eauto|].
    destruct rest'; eauto. }
  unfold numberToString.
  destruct (n =? 0); [by exists "0"%char, ""|].
  destruct (n <? 0); [|apply Hpositive].
  by exists "-"%char, (positiveToString (- n)).
Qed.

Lemma lookupSeparator_claimed v :
  isObjectPrototypeName (toPropertyKey v) = false →
  lookupSeparator v = SepPrim (claimedSeparator v).
Proof.
  intros Hown. destruct v as [| |[]|n|s]; try done.
  - destruct (numberToString_head n) as (c & rest & Hn & Hc).
    apply (numeral_not_a_name c rest) in Hc as [Hmap Hproto].
    unfold lookupSeparator. cbn [toPropertyKey]. by rewrite Hn, Hmap, Hproto.
  - unfold lookupSeparator, claimedSeparator. cbn [toPropertyKey] in *.
    rewrite Hown. unfold separatorMap. cbn [assoc].
    repeat (match goal with
            | |- context [String.eqb ?name s] =>
                destruct (String.eqb_spec name s) as [<-|?]; [done|]
            end).
    rewrite !bool_decide_eq_false_2 by (intros [?|?]; congruence). done.
Qed.

Lemma setDefaultOptions_separator options normalised :
  setDefaultOptions options = Return normalised →
  def_separator normalised = lookupSeparator (raw_separator options).
Proof.
  unfold setDefaultOptions. intros Hreturn.
  destruct (if _ || _ then _ else _); [|done].
  by injection Hreturn as <-.
Qed.

Lemma autoHeadersOptions_separator G raw plugin :
  autoHeadersOptions G raw = Return plugin →
  plugin_separator plugin = lookupSeparator (raw_separator raw).
Proof.
  unfold autoHeadersOptions. intros Hreturn.
  destruct (setDefaultOptions raw) as [normalised|] eqn:Hdefaults; [|done].
  apply setDefaultOptions_separator in Hdefaults as <-.
  cbn [mbind result_bind] in Hreturn.
  destruct (validateAndGetHeadingRange G _); [|done].
  cbn [mbind result_bind] in Hreturn.
  destruct (validateAndReturnSidebar G _); [|done].
  by injection Hreturn as <-.
Qed.

(** The first hook splits the signifier on the separator of its options. *)
Lemma beforeEachTry_split G defaultLevels options markdown options' cleaned :
  beforeEachTry G defaultLevels options markdown = Return (options', cleaned) →
  ∃ signifier ranges pad,
    checkAutoHeader G markdown = Return signifier
    ∧ validateAndGetHeadingRange G defaultLevels = Return ranges
    ∧ levels options'
      = mergeConfiguration ranges
          (buildStartingValues
             (padElements pad (map trim (split (separator options) signifier)))).
Proof.
  unfold beforeEachTry.
  destruct (checkAutoHeader G markdown) as [signifier|]; [cbn|done].
  destruct (if String.eqb signifier "" then _ else _); [cbn|done].
  destruct (validateAndGetHeadingRange G defaultLevels) as [ranges|]; [cbn|done].
  unfold getStartingValues.
  destruct (if negb _ then _ else _); [cbn|done].
  intros [= <- <-]. eauto 10.
Qed.

(** C10.  Normalisation maps the six names and keeps every other separator
    that is not the name of a property objects inherit; [autoHeaders] stores
    the result in its options, and the hooks split the signifier and join
    the labels with that value.  For ['constructor'] the lookup in
    [separatorMap] reaches the inherited property: the separator becomes
    that function, not the string given. *)
Theorem separator_before_use :
  (∀ G raw plugin,
     autoHeadersOptions G raw = Return plugin →
     isObjectPrototypeName (toPropertyKey (raw_separator raw)) = false →
     plugin_separator plugin = SepPrim (claimedSeparator (raw_separator raw))
     ∧ ∀ options,
         hookOptions plugin = Some options →
         JStr (separator options) = claimedSeparator (raw_separator raw)
         ∧ (∀ G' defaultLevels markdown options' cleaned,
              beforeEachTry G' defaultLevels options markdown
              = Return (options', cleaned) →
              separator options' = separator options
              ∧ ∃ signifier ranges pad,
                  checkAutoHeader G' markdown = Return signifier
                  ∧ levels options'
                    = mergeConfiguration ranges
                        (buildStartingValues
                           (padElements pad
                              (map trim (split (separator options) signifier)))))
         ∧ (∀ options' text,
              separator options' = separator options →
              shouldContinue options' = true →
              beforeEachRender options' (Some text)
              = match parseMarkdown text (separator options) (levels options') with
                | Return output => Return (Some output)
                | Throw _ => Return None
                end))
  ∧ (∃ plugin,
       autoHeadersOptions (OptionsDebug true) dotOptions = Return plugin
       ∧ hookOptions plugin
         = Some {| separator := "."; levels := levels (pageOptions true);
                   sidebar := true; debug := true; shouldContinue := false |})
  ∧ setDefaultOptions constructorOptions
    = Return {| def_separator := SepInherited "constructor";
                def_levels := LPrim (JNum 6);
                def_sidebar := true; def_debug := true |}
  ∧ ¬ claimedNormalisation constructorOptions
  ∧ (∀ G plugin,
       autoHeadersOptions G constructorOptions = Return plugin →
       plugin_separator plugin = SepInherited "constructor"
       ∧ hookOptions plugin = None).
Proof.
  split; [|split; [|split; [|split]]].
  - intros G raw plugin Hplugin Hown.
    apply autoHeadersOptions_separator in Hplugin.
    rewrite lookupSeparator_claimed in Hplugin by done.
    split; [done|]. intros options Hoptions.
    unfold hookOptions in Hoptions. rewrite Hplugin in Hoptions.
    destruct (claimedSeparator (raw_separator raw)) as [| | | |s] eqn:Hs; try done.
    injection Hoptions as <-. cbn [separator].
    split; [done|]. split.
    + intros G' defaultLevels markdown options' cleaned Htry.
      split; [by apply beforeEachTry_Return in Htry as (_ & _ & -> & _)|].
      apply beforeEachTry_split in Htry as (signifier & ranges & pad & ? & ? & ?).
      eauto 10.
    + intros options' text Hseparator Hcontinue.
      unfold beforeEachRender, applyScopedHeadingCountsMarkdown.
      by rewrite Hcontinue, Hseparator.
  - eexists. split; [by vm_compute|]. by vm_compute.
  - reflexivity.
  - intros (normalised & Hreturn & Hsep).
    vm_compute in Hreturn. injection Hreturn as <-. by vm_compute in Hsep.
  - intros G plugin Hplugin. apply autoHeadersOptions_separator in Hplugin.
    unfold hookOptions. by rewrite Hplugin.
Qed.

(** ** The alphabetic signifier, end to end *)

(** C6 as stated fails on the seed token ["A"]: the page is accepted, and
    its first heading is labelled ["1-"], not ["A-"]. *)
Lemma alphabetic_signifier_counterexample :
  beforeEachSignifier (OptionsDebug true) (LPrim (JNum 6)) (pageOptions true)
    letterPage
  = Return (letterOptions, Some "# Title")
  ∧ beforeEachRender letterOptions (Some "# Title") = Return (Some "# 1- Title")
  ∧ beforeEachRender letterOptions (Some "# Title") ≠ Return (Some "# A- Title").
Proof. by vm_compute. Qed.

Lemma alphabetic_signifier_counts_numerically_witness :
  forallb isAllAlphabetic (map trim (split "-" "A-b")) = true
  ∧ ∃ startingValues,
      getStartingValues (OptionsDebug true) "A-b" "-" = Return startingValues
      ∧ (∀ name, (1 ≤ name ≤ 6)%nat →
           currentCounts
             (createCountContextObjects
                (mergeConfiguration (buildHeadings (Some 1) (Some 6)) startingValues))
           !! name = Some zeroEntry)
      ∧ (∀ separator scoped, 1%nat ∈ scoped →
           ∃ counts',
             advance separator scoped
               (currentCounts
                  (createCountContextObjects
                     (mergeConfiguration (buildHeadings (Some 1) (Some 6))
                        startingValues)))
               1
             = Return (counts', Some ("1" +:+ separator))).
Proof.
  split; [reflexivity|].
  apply (alphabetic_signifier_counts_numerically (OptionsDebug true) "A-b" "-"
           (Some 1) (Some 6)).
  reflexivity.
Defined.

(** ** The second hook *)

(** With [debug] off the second hook raises nothing either, and after a
    failure of the first it has no text to work on. *)
Lemma beforeEachRender_silent options markdown :
  debug options = false →
  ¬ raises (beforeEachRender options markdown)
  ∧ beforeEachRender options None = Return None.
Proof.
  intros Hdebug. unfold beforeEachRender, showErrorMessage. rewrite Hdebug.
  split.
  - intros [e He]. destruct (negb _), markdown as [text|]; cbn in He; [|done| |done];
      by destruct (applyScopedHeadingCountsMarkdown _ _ _).
  - by destruct (negb _).
Qed.

(** * Further properties of the code *)

(** ** The scan of the text renderer *)

Lemma spanChars_app p s :
  s = (spanChars p s).1 +:+ (spanChars p s).2.
Proof.
  induction s as [|c s IH]; [done|]. cbn [spanChars].
  destruct (p c); [|done].
  destruct (spanChars p s) as [run after]. cbn [fst snd] in *. app_step.
  by rewrite <- IH.
Qed.

Lemma spanChars_all p s : allChars p (spanChars p s).1 = true.
Proof.
  induction s as [|c s IH]; [done|]. cbn [spanChars].
  destruct (p c) eqn:Hc; [|done].
  destruct (spanChars p s) as [run after]. cbn [fst allChars] in *.
  by rewrite Hc, IH.
Qed.

Lemma string_length_app s1 s2 :
  String.length (s1 +:+ s2) = (String.length s1 + String.length s2)%nat.
Proof. induction s1 as [|c s1 IH]; [done|]. app_step. cbn. by rewrite IH. Qed.

Lemma dropChars_app s1 s2 : dropChars (String.length s1) (s1 +:+ s2) = s2.
Proof. induction s1 as [|c s1 IH]; [done|]. app_step. by cbn. Qed.

Lemma matchHeading_Some s hashes space text :
  matchHeading s = Some (hashes, space, text) →
  wellFormedChunk (Heading hashes space text)
  ∧ ∃ tail, s = matched hashes space text +:+ tail.
Proof.
  unfold matchHeading.
  pose proof (spanChars_app isHash s) as Hs.
  pose proof (spanChars_all isHash s) as Hh.
  destruct (spanChars isHash s) as [h afterHashes]. cbn [fst snd] in *.
  pose proof (spanChars_app isWhiteSpace afterHashes) as Ha.
  pose proof (spanChars_all isWhiteSpace afterHashes) as Hw.
  destruct (spanChars isWhiteSpace afterHashes) as [w afterSpace].
  cbn [fst snd] in *.
  pose proof (spanChars_app notLineTerminator afterSpace) as Ht.
  pose proof (spanChars_all notLineTerminator afterSpace) as Htext.
  fold notLineTerminator.
  destruct (spanChars notLineTerminator afterSpace) as [t tail].
  cbn [fst snd] in *.
  destruct (_ && _ && _) eqn:Hcond; [|done]. intros [= <- <- <-].
  apply andb_true_iff in Hcond as [Hlen Hspace].
  apply andb_true_iff in Hlen as [Hlo Hhi].
  apply Nat.leb_le in Hlo, Hhi. apply negb_true_iff in Hspace.
  split.
  - repeat split; try done. intros ->. by cbn in Hspace.
  - exists tail. unfold matched. rewrite Hs, Ha, Ht.
    clear. induction h as [|c h IH]; app_step.
    + induction w as [|c w IH]; app_step; [done|]. by rewrite IH.
    + by rewrite IH.
Qed.

Lemma scanGo_text s atLineStart skip :
  (skip ≤ String.length s)%nat →
  chunksText (scanGo s atLineStart skip) = dropChars skip s.
Proof.
  revert atLineStart skip.
  induction s as [|c s IH]; intros atLineStart skip Hskip.
  { by destruct skip. }
  cbn [scanGo]. destruct skip as [|k].
  - destruct (if atLineStart then _ else _) as [[[hashes space] text]|] eqn:Hmatch.
    + destruct atLineStart; [|done].
      apply matchHeading_Some in Hmatch as [(_ & Hlen & _) [tail Hs]].
      cbn [chunksText dropChars].
      destruct (matched hashes space text) as [|c' m] eqn:Hm.
      { unfold matched in Hm. destruct hashes; [cbn in Hlen; lia|done]. }
      revert Hs. app_step. intros [= <- ->].
      replace (String.length (String c m) - 1)%nat with (String.length m)
        by (cbn; lia).
      rewrite IH by (rewrite string_length_app; lia).
      by rewrite dropChars_app.
    + cbn [chunksText dropChars]. by rewrite IH by lia.
  - cbn [dropChars]. apply IH. cbn in Hskip. lia.
Qed.

(** X1.  The chunks of the scan, put back together, are the text: the scan
    loses and adds nothing. *)
Theorem scanHeadings_text (markdown : string) :
  chunksText (scanHeadings markdown) = markdown.
Proof. unfold scanHeadings. by rewrite scanGo_text by lia. Qed.

Lemma scanGo_wellFormed s atLineStart skip :
  Forall wellFormedChunk (scanGo s atLineStart skip).
Proof.
  revert atLineStart skip.
  induction s as [|c s IH]; intros atLineStart skip; [constructor|].
  cbn [scanGo]. destruct skip as [|k]; [|apply IH].
  destruct (if atLineStart then _ else _) as [[[hashes space] text]|] eqn:Hmatch.
  - destruct atLineStart; [|done].
    apply matchHeading_Some in Hmatch as [Hwf _]. constructor; [done|apply IH].
  - constructor; [done|apply IH].
Qed.

Lemma chunkLevels_wellFormed chunks :
  Forall wellFormedChunk chunks →
  Forall (λ headingLevel, (1 ≤ headingLevel ≤ 6)%nat) (chunkLevels chunks).
Proof.
  intros Hwf.
  induction Hwf as [|[c|hashes space text] chunks Hchunk _ IH]; cbn; [done..|].
  constructor; [|done]. by destruct Hchunk as (_ & Hlen & _).
Qed.

(** X2.  Every heading the scan finds has one to six [#], so a level
    between 1 and 6, at least one code unit of white space after them, and
    a text without line break. *)
Theorem scanHeadings_wellFormed (markdown : string) :
  Forall wellFormedChunk (scanHeadings markdown)
  ∧ Forall (λ headingLevel, (1 ≤ headingLevel ≤ 6)%nat)
      (chunkLevels (scanHeadings markdown)).
Proof.
  split; [apply scanGo_wellFormed|].
  apply chunkLevels_wellFormed, scanGo_wellFormed.
Qed.

(** ** The counts along a run of headings *)

Lemma resetMinorCounts_is_Some names counts name :
  is_Some (resetMinorCounts names counts !! name) ↔ is_Some (counts !! name).
Proof.
  revert counts. induction names as [|n names IH]; intros counts; [done|].
  rewrite resetMinorCounts_cons, IH.
  destruct (counts !! n) as [entry|] eqn:Hn; [|done].
  destruct (decide (n = name)) as [->|Hne].
  - rewrite lookup_insert_eq, Hn. split; eauto.
  - by rewrite lookup_insert_ne.
Qed.

(** X3.  A counting step that returns keeps the keys of the state: it adds
    no level and drops none. *)
Theorem advance_keeps_keys (separator : string) (scoped : gset nat)
    (counts counts' : gmap nat CounterEntry) (L : nat) (label : option string) :
  advance separator scoped counts L = Return (counts', label) →
  ∀ name, is_Some (counts' !! name) ↔ is_Some (counts !! name).
Proof.
  unfold advance. intros Hadv name.
  destruct (resetMinorCounts (drop L headingNameList) counts !! L)
    as [entry|] eqn:HL; [|done].
  assert (Hcounts' : counts'
            = <[L := nextEntry entry]>
                (resetMinorCounts (drop L headingNameList) counts)).
  { destruct (bool_decide _); [|by injection Hadv as <-].
    destruct (counterString _ _ _); [|done]. by injection Hadv as <-. }
  subst counts'. destruct (decide (L = name)) as [->|Hne].
  - rewrite lookup_insert_eq.
    rewrite <- (resetMinorCounts_is_Some (drop name headingNameList) counts name), HL.
    split; eauto.
  - by rewrite lookup_insert_ne, resetMinorCounts_is_Some.
Qed.

Lemma advance_keeps_keys_witness :
  is_Some (<[2%nat := bumpEntry zeroEntry]>
             (resetMinorCounts (drop 2 headingNameList) zeroCounts) !! 3%nat)
  ↔ is_Some (zeroCounts !! 3%nat).
Proof.
  apply (advance_keeps_keys "." ∅ zeroCounts _ 2 None). reflexivity.
Defined.

(** A step on a state that holds the six levels returns, keeps them, and
    labels the heading exactly when its level is in scope. *)
Lemma advance_returns separator scoped counts L :
  (1 ≤ L ≤ 6)%nat → complete counts →
  ∃ counts' label,
    advance separator scoped counts L = Return (counts', label)
    ∧ complete counts'
    ∧ (is_Some label ↔ L ∈ scoped).
Proof.
  intros HL Hcomplete.
  destruct (Hcomplete L HL) as [entry Hentry].
  assert (HatL : resetMinorCounts (drop L headingNameList) counts !! L = Some entry).
  { rewrite resetMinorCounts_notin; [done|].
    rewrite elem_of_drop_headingNameList. lia. }
  assert (Hkeys : complete
            (<[L := nextEntry entry]>
               (resetMinorCounts (drop L headingNameList) counts))).
  { intros name Hname. destruct (decide (L = name)) as [->|Hne].
    - rewrite lookup_insert_eq. eauto.
    - rewrite lookup_insert_ne by done.
      apply resetMinorCounts_is_Some. by apply Hcomplete. }
  unfold advance. rewrite HatL. case_bool_decide.
  - rewrite counterString_complete by (intros name Hname; apply Hkeys; lia).
    eexists _, _. split; [done|]. split; [done|]. split; eauto.
  - eexists _, _. split; [done|]. split; [done|].
    split; [by intros [??]|done].
Qed.

Lemma labelsRun_returns separator scoped counts headingLevels :
  complete counts →
  Forall (λ headingLevel, (1 ≤ headingLevel ≤ 6)%nat) headingLevels →
  ∃ labels,
    labelsRun separator scoped counts headingLevels = Return labels
    ∧ Forall2 (λ headingLevel label, is_Some label ↔ headingLevel ∈ scoped)
        headingLevels labels.
Proof.
  intros Hcomplete Hlevels. revert counts Hcomplete.
  induction Hlevels as [|L headingLevels HL _ IH]; intros counts Hcomplete.
  { exists []. by split. }
  destruct (advance_returns separator scoped counts L HL Hcomplete)
    as (counts' & label & Hadv & Hcomplete' & Hlabel).
  destruct (IH counts' Hcomplete') as (labels & Hrun & Hall).
  exists (label :: labels). cbn [labelsRun]. rewrite Hadv. cbn. rewrite Hrun.
  split; [done|]. by constructor.
Qed.

Lemma createCountContextObjects_complete levels :
  sixLevels levels → complete (currentCounts (createCountContextObjects levels)).
Proof.
  intros Hsix name Hname. cbn. rewrite lookup_fmap.
  destruct (Hsix name Hname) as [cfg ->]. by eexists.
Qed.

Lemma elem_of_scopedTagNames levels name :
  name ∈ scopedTagNames (createCountContextObjects levels) ↔ levelInScope levels name.
Proof.
  cbn. rewrite elem_of_dom. unfold levelInScope. split.
  - intros [cfg Hcfg]. apply map_lookup_filter_Some in Hcfg as [??]. eauto.
  - intros (cfg & Hcfg & Hscope). exists cfg. by apply map_lookup_filter_Some.
Qed.

(** X4.  On a configuration that holds the six levels the text renderer
    never throws; it writes one label per heading match whose level is in
    scope, and leaves the other matches as they are. *)
Theorem parseMarkdown_returns (markdown separator : string)
    (levels : gmap nat HeadingConfig) :
  sixLevels levels →
  ∃ labels,
    parseMarkdown markdown separator levels
    = Return (renderWith (scanHeadings markdown) labels)
    ∧ Forall2 (λ headingLevel label, is_Some label ↔ levelInScope levels headingLevel)
        (chunkLevels (scanHeadings markdown)) labels.
Proof.
  intros Hsix.
  destruct (labelsRun_returns separator
              (scopedTagNames (createCountContextObjects levels))
              (currentCounts (createCountContextObjects levels))
              (chunkLevels (scanHeadings markdown)))
    as (labels & Hrun & Hall).
  { by apply createCountContextObjects_complete. }
  { apply chunkLevels_wellFormed, scanGo_wellFormed. }
  exists labels. rewrite parseMarkdown_labels, Hrun. split; [done|].
  eapply Forall2_impl; [exact Hall|].
  intros L label Hlabel. by rewrite <- elem_of_scopedTagNames.
Qed.

Lemma levelsOneOne_sixLevels : sixLevels levelsOneOne.
Proof.
  intros name Hname.
  do 7 (destruct name as [|name]; [try lia; eexists; reflexivity|]). lia.
Defined.

Lemma parseMarkdown_returns_witness :
  ∃ labels,
    parseMarkdown outlineDocument "-" levelsOneOne
    = Return (renderWith (scanHeadings outlineDocument) labels)
    ∧ Forall2 (λ headingLevel label,
                 is_Some label ↔ levelInScope levelsOneOne headingLevel)
        (chunkLevels (scanHeadings outlineDocument)) labels.
Proof.
  apply (parseMarkdown_returns outlineDocument "-" levelsOneOne).
  exact levelsOneOne_sixLevels.
Defined.

Lemma renderWith_None chunks labels :
  Forall (λ label : option string, label = None) labels →
  renderWith chunks labels = chunksText chunks.
Proof.
  intros Hnone. revert labels Hnone.
  induction chunks as [|[c|hashes space text] chunks IH]; intros labels Hnone.
  - done.
  - cbn. by rewrite IH.
  - cbn. destruct Hnone as [|label labels -> Hnone].
    + by rewrite (IH [] (Forall_nil_2 _)).
    + by rewrite IH.
Qed.

(** X5.  When the configuration holds the six levels and marks none of
    them in scope, the text renderer returns the text unchanged. *)
Theorem parseMarkdown_nothing_in_scope (markdown separator : string)
    (levels : gmap nat HeadingConfig) :
  sixLevels levels →
  (∀ name cfg, levels !! name = Some cfg → inScope cfg = false) →
  parseMarkdown markdown separator levels = Return markdown.
Proof.
  intros Hsix Hnone.
  destruct (labelsRun_returns separator
              (scopedTagNames (createCountContextObjects levels))
              (currentCounts (createCountContextObjects levels))
              (chunkLevels (scanHeadings markdown)))
    as (labels & Hrun & Hall).
  { by apply createCountContextObjects_complete. }
  { apply chunkLevels_wellFormed, scanGo_wellFormed. }
  rewrite parseMarkdown_labels, Hrun. cbn.
  rewrite renderWith_None.
  { unfold scanHeadings. by rewrite scanGo_text by lia. }
  clear -Hall Hnone.
  induction Hall as [|L label Ls labels Hlabel _ IH]; constructor; [|done].
  destruct label as [label|]; [|done].
  destruct Hlabel as [Hlabel _].
  apply elem_of_scopedTagNames in Hlabel as (cfg & Hcfg & Hscope); [|by eexists].
  by rewrite (Hnone L cfg Hcfg) in Hscope.
Qed.

(** X6.  A text in which the scan finds no heading is returned unchanged,
    whatever the configuration, even an empty one. *)
Theorem parseMarkdown_no_heading (markdown separator : string)
    (levels : gmap nat HeadingConfig) :
  chunkLevels (scanHeadings markdown) = [] →
  parseMarkdown markdown separator levels = Return markdown.
Proof.
  intros Hnone. rewrite parseMarkdown_labels, Hnone. cbn.
  rewrite (renderWith_None _ [] (Forall_nil_2 _)).
  unfold scanHeadings. by rewrite scanGo_text by lia.
Qed.

(** X7.  When the configuration has no entry for the level of the first
    heading of the text, the text renderer throws a [TypeError]. *)
Theorem parseMarkdown_missing_level (markdown separator : string)
    (levels : gmap nat HeadingConfig) (L : nat) (rest : list nat) :
  chunkLevels (scanHeadings markdown) = L :: rest →
  levels !! L = None →
  parseMarkdown markdown separator levels = Throw TypeError.
Proof.
  intros Hfirst Hmissing. rewrite parseMarkdown_labels, Hfirst.
  cbn [labelsRun]. unfold advance.
  assert (Hnone : resetMinorCounts (drop L headingNameList)
                    (currentCounts (createCountContextObjects levels)) !! L = None).
  { apply eq_None_not_Some. rewrite resetMinorCounts_is_Some. cbn.
    rewrite lookup_fmap, Hmissing. by intros [??]. }
  by rewrite Hnone.
Qed.

Lemma levelsNoScope_sixLevels : sixLevels levelsNoScope.
Proof.
  intros name Hname.
  do 7 (destruct name as [|name]; [try lia; eexists; reflexivity|]). lia.
Defined.

Lemma levelsNoScope_none name cfg :
  levelsNoScope !! name = Some cfg → inScope cfg = false.
Proof.
  unfold levelsNoScope. rewrite mergeConfiguration_lookup, buildHeadings_lookup.
  case_bool_decide as Hname; [|done].
  do 7 (destruct name as [|name]; [try lia; by intros [= <-]|]). lia.
Defined.

Lemma parseMarkdown_nothing_in_scope_witness :
  parseMarkdown outlineDocument "-" levelsNoScope = Return outlineDocument.
Proof.
  apply (parseMarkdown_nothing_in_scope outlineDocument "-" levelsNoScope).
  - exact levelsNoScope_sixLevels.
  - exact levelsNoScope_none.
Defined.

Lemma parseMarkdown_no_heading_witness :
  parseMarkdown noHeadingDocument "-" ∅ = Return noHeadingDocument.
Proof.
  apply (parseMarkdown_no_heading noHeadingDocument "-" ∅). reflexivity.
Defined.

Lemma parseMarkdown_missing_level_witness :
  parseMarkdown "# a" "-" ∅ = Throw TypeError.
Proof.
  apply (parseMarkdown_missing_level "# a" "-" ∅ 1 []); reflexivity.
Defined.

(** What a step that returns has done to the state. *)
Lemma advance_Return_inv separator scoped counts counts' L label :
  advance separator scoped counts L = Return (counts', label) →
  ∃ entry,
    resetMinorCounts (drop L headingNameList) counts !! L = Some entry
    ∧ counts' = <[L := nextEntry entry]>
                  (resetMinorCounts (drop L headingNameList) counts).
Proof.
  unfold advance. intros Hadv.
  destruct (resetMinorCounts (drop L headingNameList) counts !! L)
    as [entry|]; [|done].
  exists entry. split; [done|].
  destruct (bool_decide _); [|by injection Hadv as <-].
  destruct (counterString _ _ _); [|done]. by injection Hadv as <-.
Qed.

Lemma advance_Return_deeper separator scoped counts counts' L label name :
  advance separator scoped counts L = Return (counts', label) →
  (L < name ≤ 6)%nat →
  counts' !! name = resetEntry <$> counts !! name.
Proof.
  intros (entry & _ & ->)%advance_Return_inv Hname.
  rewrite lookup_insert_ne by lia.
  apply resetMinorCounts_in; [apply headingNameList_drop_NoDup|].
  by apply elem_of_drop_headingNameList.
Qed.

(** X8.  After two headings in a row, every level deeper than both has
    [current] and [reset] at 0, whatever the signifier seeded there: a
    seed for a deeper level serves the first run of that level at most. *)
Theorem advance_twice_decay (separator : string) (scoped : gset nat)
    (counts counts1 counts2 : gmap nat CounterEntry) (L1 L2 : nat)
    (label1 label2 : option string) (name : nat) :
  advance separator scoped counts L1 = Return (counts1, label1) →
  advance separator scoped counts1 L2 = Return (counts2, label2) →
  (L1 < name)%nat → (L2 < name)%nat → (name ≤ 6)%nat →
  is_Some (counts !! name) →
  counts2 !! name = Some zeroEntry.
Proof.
  intros Hone Htwo H1 H2 H6 [entry Hentry].
  rewrite (advance_Return_deeper _ _ _ _ _ _ name Htwo) by lia.
  rewrite (advance_Return_deeper _ _ _ _ _ _ name Hone) by lia.
  by rewrite Hentry.
Qed.

Lemma advance_twice_decay_witness :
  ∃ counts1 counts2,
    advance "." ∅ fourCounts 1 = Return (counts1, None)
    ∧ advance "." ∅ counts1 1 = Return (counts2, None)
    ∧ counts2 !! 2%nat = Some zeroEntry.
Proof.
  eexists _, _. split; [reflexivity|]. split; [reflexivity|].
  eapply (advance_twice_decay "." ∅ fourCounts _ _ 1 1 None None 2);
    [reflexivity | reflexivity | lia | lia | lia | eexists; reflexivity].
Defined.

Lemma labelUnder_ext separator counts counts' L value :
  (∀ name, (name < L)%nat → currentAt counts' name = currentAt counts name) →
  labelUnder separator counts' L value = labelUnder separator counts L value.
Proof.
  intros Hsame. unfold labelUnder. do 4 f_equal.
  apply map_ext_in. intros name Hname%in_seq. apply Hsame. lia.
Qed.

Lemma advance_in_scope separator scoped counts L :
  (1 ≤ L ≤ 6)%nat → complete counts → L ∈ scoped →
  - 2 ^ 53 ≤ currentAt counts L < 2 ^ 53 →
  ∃ counts',
    advance separator scoped counts L
    = Return (counts', Some (labelUnder separator counts L (currentAt counts L + 1)))
    ∧ complete counts'
    ∧ currentAt counts' L = currentAt counts L + 1
    ∧ (∀ name, (name < L)%nat → currentAt counts' name = currentAt counts name).
Proof.
  intros HL Hcomplete Hscoped Hexact.
  destruct (Hcomplete L HL) as [entry Hentry].
  assert (HatL : resetMinorCounts (drop L headingNameList) counts !! L = Some entry).
  { rewrite resetMinorCounts_notin; [done|].
    rewrite elem_of_drop_headingNameList. lia. }
  assert (Hnext : nextEntry entry = bumpEntry entry).
  { apply nextEntry_exact. unfold currentAt in Hexact. by rewrite Hentry in Hexact. }
  set (counts' := <[L := bumpEntry entry]>
                    (resetMinorCounts (drop L headingNameList) counts)).
  assert (Hkeys : complete counts').
  { intros name Hname. unfold counts'. destruct (decide (L = name)) as [->|Hne].
    - rewrite lookup_insert_eq. eauto.
    - rewrite lookup_insert_ne by done.
      apply resetMinorCounts_is_Some. by apply Hcomplete. }
  assert (Hown : currentAt counts' L = currentAt counts L + 1).
  { unfold currentAt, counts'. by rewrite lookup_insert_eq, Hentry. }
  assert (Hshallow : ∀ name, (name < L)%nat →
                             currentAt counts' name = currentAt counts name).
  { intros name Hname. unfold currentAt, counts'.
    rewrite lookup_insert_ne by lia.
    rewrite resetMinorCounts_notin; [done|].
    rewrite elem_of_drop_headingNameList. lia. }
  exists counts'. split; [|done].
  unfold advance. rewrite HatL. fold (nextEntry entry). rewrite Hnext. fold counts'.
  rewrite bool_decide_eq_true_2 by done.
  rewrite counterString_complete by (intros name Hname; apply Hkeys; lia).
  cbn. do 3 f_equal. unfold labelUnder. do 2 f_equal.
  replace L with (L - 1 + 1)%nat at 1 by lia.
  rewrite seq_app, !map_app, !map_map. cbn [seq map].
  replace (1 + (L - 1))%nat with L by lia. rewrite Hown. f_equal.
  apply map_ext_in. intros name Hname%in_seq. f_equal. apply Hshallow. lia.
Qed.

(** X9.  Headings of one level in a row, on a state that holds the six
    levels, with the level in scope and its counter staying within the
    integers a double counts one by one (from -2^53 to 2^53), are numbered
    consecutively: the [k]-th of them shows the counter of the level plus
    [k], after the unchanged counters of the shallower levels. *)
Theorem same_level_run (separator : string) (scoped : gset nat)
    (counts : gmap nat CounterEntry) (L n : nat) :
  (1 ≤ L ≤ 6)%nat → complete counts → L ∈ scoped →
  - 2 ^ 53 ≤ currentAt counts L → currentAt counts L + Z.of_nat n ≤ 2 ^ 53 →
  labelsRun separator scoped counts (replicate n L)
  = Return (map (λ k, Some (labelUnder separator counts L
                              (currentAt counts L + Z.of_nat k)))
              (seq 1 n)).
Proof.
  intros HL Hcomplete Hscoped. revert counts Hcomplete.
  induction n as [|n IH]; intros counts Hcomplete Hlow Hhigh; [done|].
  destruct (advance_in_scope separator scoped counts L HL Hcomplete Hscoped)
    as (counts' & Hadv & Hcomplete' & Hown & Hshallow); [lia|].
  cbn [replicate labelsRun]. rewrite Hadv. cbn.
  rewrite (IH counts' Hcomplete') by lia.
  cbn. do 2 f_equal.
  rewrite <- (seq_shift n 1), map_map. apply map_ext. intros k.
  rewrite (labelUnder_ext separator counts counts') by done.
  do 2 f_equal. rewrite Hown. lia.
Qed.

Lemma same_level_run_witness :
  - 2 ^ 53 ≤ currentAt zeroCounts 2
  ∧ currentAt zeroCounts 2 + Z.of_nat 3 ≤ 2 ^ 53
  ∧ labelsRun "." {[2%nat]} zeroCounts (replicate 3 2%nat)
    = Return [Some "0.1."; Some "0.2."; Some "0.3."].
Proof.
  split; [by vm_compute|]. split; [by vm_compute|].
  apply (same_level_run "." {[2%nat]} zeroCounts 2 3);
    [lia | exact zeroCounts_complete | set_solver | by vm_compute | by vm_compute].
Defined.

(** ** The starting values *)

Lemma padElements_lookup_default pad elements i :
  (i < 6)%nat →
  padElements pad elements !! i = Some (default pad (elements !! i)).
Proof.
  intros Hi. unfold padElements.
  destruct (decide (i < List.length elements)%nat) as [Hlt|Hge].
  - destruct (lookup_lt_is_Some_2 elements i Hlt) as [tok Htok].
    by rewrite lookup_app_l, Htok.
  - rewrite lookup_app_r by lia.
    rewrite (lookup_ge_None_2 elements i) by lia.
    apply lookup_replicate_2. lia.
Qed.

(** X10.  A signifier whose tokens are all numeric is accepted whatever the
    binding of [options]: the level [h{i}] receives the [i]-th token, the
    levels past the last token receive ["1"], and the tokens past the sixth
    are dropped. *)
Theorem getStartingValues_numeric (G : GlobalOptions) (headerNumbers separator : string) :
  forallb isAllNumeric (map trim (split separator headerNumbers)) = true →
  ∃ startingValues,
    getStartingValues G headerNumbers separator = Return startingValues
    ∧ (∀ name, (1 ≤ name ≤ 6)%nat →
         startingValues !! name
         = Some (Some (default "1"
                         (map trim (split separator headerNumbers) !! (name - 1)%nat))))
    ∧ (∀ name, ¬ (1 ≤ name ≤ 6)%nat → startingValues !! name = None).
Proof.
  intros Hnumeric. unfold getStartingValues. rewrite Hnumeric. cbn [orb negb].
  eexists. split; [done|]. split.
  - intros name Hname.
    rewrite buildStartingValues_lookup, bool_decide_eq_true_2 by done.
    rewrite padElements_lookup_default by lia. done.
  - intros name Hname.
    by rewrite buildStartingValues_lookup, bool_decide_eq_false_2.
Qed.

Lemma getStartingValues_numeric_witness :
  ∃ startingValues,
    getStartingValues OptionsUnbound "2-7-1-1-1-1-9" "-" = Return startingValues
    ∧ (∀ name, (1 ≤ name ≤ 6)%nat →
         startingValues !! name
         = Some (Some (default "1"
                         (map trim (split "-" "2-7-1-1-1-1-9") !! (name - 1)%nat))))
    ∧ (∀ name, ¬ (1 ≤ name ≤ 6)%nat → startingValues !! name = None).
Proof.
  apply (getStartingValues_numeric OptionsUnbound "2-7-1-1-1-1-9" "-").
  reflexivity.
Defined.

(** ** Decimal numerals *)

Lemma spanChars_allChars p s :
  allChars p s = true → spanChars p s = (s, EmptyString).
Proof.
  induction s as [|c s IH]; [done|]. cbn.
  intros [-> Hs]%andb_true_iff. by rewrite IH.
Qed.

Lemma digitValue_pretty_N_char d :
  (d < 10)%N → digitValue (pretty_N_char d) = Z.of_N d.
Proof.
  intros Hd. destruct d as [|p]; [done|].
  do 4 (destruct p as [p|p|]; try done; try lia).
Qed.

Lemma isDigit_pretty_N_char d : isDigit (pretty_N_char d) = true.
Proof. unfold pretty_N_char. by repeat case_match. Qed.

Lemma pretty_N_go_value x s :
  digitsValue 0 (pretty_N_go x s) = digitsValue (Z.of_N x) s.
Proof.
  revert s. induction (N.lt_wf_0 x) as [x _ IH]. intros s.
  destruct (N.eq_0_gt_0_cases x) as [->|Hx]; [done|].
  rewrite pretty_N_go_step by done.
  rewrite IH by (by apply N.div_lt). cbn [digitsValue].
  rewrite digitValue_pretty_N_char by (by apply N.mod_lt).
  f_equal. pose proof (N.div_mod x 10). lia.
Qed.

Lemma pretty_N_go_digits x s :
  allChars isDigit s = true → allChars isDigit (pretty_N_go x s) = true.
Proof.
  revert s. induction (N.lt_wf_0 x) as [x _ IH]. intros s Hs.
  destruct (N.eq_0_gt_0_cases x) as [->|Hx]; [done|].
  rewrite pretty_N_go_step by done.
  apply IH; [by apply N.div_lt|]. cbn. by rewrite isDigit_pretty_N_char.
Qed.

Lemma mathInt_digits str :
  str ≠ EmptyString → allChars isDigit str = true →
  mathInt str = Some (digitsValue 0 str).
Proof.
  intros Hne Hdigits. destruct str as [|c rest]; [done|].
  unfold mathInt, trimStart.
  assert (Hc : isDigit c = true) by (cbn in Hdigits; by destruct (isDigit c)).
  assert (Hws : isWhiteSpace c = false)
    by (destruct c as [[] [] [] [] [] [] [] []]; try discriminate Hc; reflexivity).
  cbn [spanChars]. rewrite Hws. cbn [snd].
  assert (Hsign : (match String c rest with
                   | String "-"%char rest' => (true, rest')
                   | String "+"%char rest' => (false, rest')
                   | _ => (false, String c rest)
                   end) = (false, String c rest))
    by (destruct c as [[] [] [] [] [] [] [] []]; try discriminate Hc; reflexivity).
  rewrite Hsign. by rewrite spanChars_allChars.
Qed.

(** Reading back the decimal numeral of an integer gives the integer. *)
Lemma mathInt_pretty (n : Z) : mathInt (pretty n) = Some n.
Proof.
  assert (Hpos : ∀ p : positive,
            pretty p ≠ EmptyString
            ∧ allChars isDigit (pretty p) = true
            ∧ digitsValue 0 (pretty p) = Z.pos p).
  { intros p. unfold pretty, pretty_positive, pretty, pretty_N.
    rewrite decide_False by done. split; [|split].
    - destruct (pretty_N_go_head (N.pos p) "") as (d & rest & ->); [lia|done].
    - by apply pretty_N_go_digits.
    - by rewrite pretty_N_go_value. }
  destruct n as [|p|p].
  - reflexivity.
  - destruct (Hpos p) as (Hne & Hdigits & Hvalue).
    change (pretty (Z.pos p)) with (pretty p).
    by rewrite mathInt_digits, Hvalue.
  - destruct (Hpos p) as (Hne & Hdigits & Hvalue).
    change (pretty (Z.neg p)) with ("-" +:+ pretty p). app_step.
    unfold mathInt, trimStart. cbn [spanChars isWhiteSpace].
    change (isWhiteSpace "-") with false. cbn [snd].
    rewrite spanChars_allChars by done. cbn [fst].
    destruct (pretty p); [done|]. by rewrite Hvalue.
Qed.

(** As a number the numeral is the double nearest to the integer. *)
Lemma parseInt_pretty (n : Z) : parseInt (Some (pretty n)) = numberOf n.
Proof. unfold parseInt, parseIntString. by rewrite mathInt_pretty. Qed.

Lemma seedEntry_pretty (n : Z) (scope : bool) :
  - 2 ^ 53 < n ≤ 2 ^ 53 →
  seedEntry {| inScope := scope; counter := Some (pretty n) |}
  = {| reset := n - 1; current := n - 1 |}.
Proof.
  intros Hn. unfold seedEntry. cbn [counter].
  rewrite parseInt_pretty, numberOf_exact by lia.
  by rewrite toDouble_exact by lia.
Qed.

(** X11.  A token that is the decimal numeral of an integer [n] with
    [-2^53 < n ≤ 2^53] seeds its level with [reset = current = n - 1]:
    reading the numeral back gives [n], which is finite, and [n - 1] is an
    integer a double holds. *)
Theorem seed_of_numeral (n : Z) (scope : bool) :
  - 2 ^ 53 < n ≤ 2 ^ 53 →
  parseInt (Some (pretty n)) = IntFinite n
  ∧ seedEntry {| inScope := scope; counter := Some (pretty n) |}
    = {| reset := n - 1; current := n - 1 |}.
Proof.
  intros Hn. split.
  - rewrite parseInt_pretty. apply numberOf_exact. lia.
  - unfold seedEntry. cbn [counter].
    rewrite parseInt_pretty, numberOf_exact by lia.
    by rewrite toDouble_exact by lia.
Qed.

Lemma seed_of_numeral_witness :
  - 2 ^ 53 < 2 ^ 53 ≤ 2 ^ 53
  ∧ parseInt (Some "9007199254740992") = IntFinite (2 ^ 53)
  ∧ seedEntry {| inScope := true; counter := Some "9007199254740992" |}
    = {| reset := 2 ^ 53 - 1; current := 2 ^ 53 - 1 |}.
Proof.
  split; [by vm_compute|].
  apply (seed_of_numeral (2 ^ 53) true). by vm_compute.
Defined.

Lemma numberOf_overflow z :
  2 ^ 1024 ≤ Z.abs z → numberOf z = IntInfinity (z <? 0).
Proof.
  intros Hz. unfold numberOf.
  apply (toDouble_above 1024) in Hz; [|lia].
  by destruct (Z.leb_spec (2 ^ 1024) (Z.abs (toDouble z))); [|lia].
Qed.

(** X29.  A token that is the decimal numeral of an integer of absolute
    value 2^1024 or more is read as an infinity, which is not finite: it
    seeds its level with 0, like a token that is no numeral at all. *)
Theorem seed_of_long_numeral (n : Z) (scope : bool) :
  2 ^ 1024 ≤ Z.abs n →
  parseInt (Some (pretty n)) = IntInfinity (n <? 0)
  ∧ seedEntry {| inScope := scope; counter := Some (pretty n) |} = zeroEntry.
Proof.
  intros Hn.
  assert (Hparse : parseInt (Some (pretty n)) = IntInfinity (n <? 0)).
  { rewrite parseInt_pretty. by apply numberOf_overflow. }
  split; [exact Hparse|].
  unfold seedEntry. cbn [counter]. by rewrite Hparse.
Qed.

Lemma seed_of_long_numeral_witness :
  2 ^ 1024 ≤ Z.abs (10 ^ 309)
  ∧ parseInt (Some (pretty (10 ^ 309))) = IntInfinity (10 ^ 309 <? 0)
  ∧ seedEntry {| inScope := true; counter := Some (pretty (10 ^ 309)) |} = zeroEntry.
Proof.
  split; [by vm_compute|].
  apply (seed_of_long_numeral (10 ^ 309) true). by vm_compute.
Defined.

Lemma levelsOfTokens_lookup token name :
  levelsOfTokens token !! name
  = if bool_decide (1 ≤ name ≤ 6)%nat
    then Some {| inScope := true; counter := Some (pretty (token name)) |}
    else None.
Proof.
  unfold levelsOfTokens, headingNameList. cbn [map list_to_map foldr].
  do 7 (destruct name as [|name]; [by simplify_map_eq|]).
  rewrite bool_decide_eq_false_2 by lia. by simplify_map_eq.
Qed.

Lemma levelsOfTokens_seed token name :
  safeTokens token → (1 ≤ name ≤ 6)%nat →
  currentAt (currentCounts (createCountContextObjects (levelsOfTokens token))) name
  = token name - 1.
Proof.
  intros Hsafe Hname. unfold currentAt. cbn [currentCounts createCountContextObjects].
  rewrite lookup_fmap, levelsOfTokens_lookup, bool_decide_eq_true_2 by done.
  cbn [fmap option_fmap option_map].
  destruct (Hsafe name Hname) as [Hless Hown]. unfold safeInteger in *.
  by rewrite seedEntry_pretty by lia.
Qed.

(** X12.  On a page whose signifier gives the numerals of [token 1] ...
    [token 6], each of them and its predecessor below 2^53 in absolute
    value, and whose six levels are in scope, a first heading of level
    [L] shows the token of its own level after the tokens of the shallower
    levels minus one: the shallower levels have not been counted yet. *)
Theorem first_heading_label (separator : string) (token : nat → Z) (L : nat) :
  (1 ≤ L ≤ 6)%nat →
  safeTokens token →
  ∃ counts',
    advance separator
      (scopedTagNames (createCountContextObjects (levelsOfTokens token)))
      (currentCounts (createCountContextObjects (levelsOfTokens token))) L
    = Return (counts',
              Some (join separator
                      (map pretty (map (λ name, token name - 1) (seq 1 (L - 1))
                                   ++ [token L])%list)
                    +:+ separator)).
Proof.
  intros HL Hsafe.
  set (levels := levelsOfTokens token).
  destruct (advance_in_scope separator
              (scopedTagNames (createCountContextObjects levels))
              (currentCounts (createCountContextObjects levels)) L HL)
    as (counts' & Hadv & _).
  { apply createCountContextObjects_complete. intros name Hname. unfold levels.
    rewrite levelsOfTokens_lookup, bool_decide_eq_true_2 by done. eauto. }
  { apply elem_of_scopedTagNames. unfold levelInScope, levels.
    rewrite levelsOfTokens_lookup, bool_decide_eq_true_2 by done. eauto. }
  { unfold levels. rewrite levelsOfTokens_seed by done.
    destruct (Hsafe L HL) as [Hless Hown]. unfold safeInteger in *. lia. }
  exists counts'. rewrite Hadv. do 3 f_equal. unfold labelUnder. do 2 f_equal.
  rewrite !map_app. f_equal.
  - rewrite !map_map. apply map_ext_in. intros name Hname%in_seq.
    unfold levels. rewrite levelsOfTokens_seed by (done || lia).
    apply numberToString_safe.
    destruct (Hsafe name) as [Hless _]; [lia|]. unfold safeInteger in Hless. lia.
  - cbn [map]. f_equal. unfold levels. rewrite levelsOfTokens_seed by done.
    replace (token L - 1 + 1) with (token L) by lia.
    apply numberToString_safe.
    destruct (Hsafe L HL) as [_ Hown]. unfold safeInteger in Hown. lia.
Qed.

Lemma safeTokens_three : safeTokens (λ _, 3).
Proof. intros name _. unfold safeInteger. lia. Defined.

Lemma first_heading_label_witness :
  safeTokens (λ _, 3)
  ∧ ∃ counts',
      advance "."
        (scopedTagNames (createCountContextObjects (levelsOfTokens (λ _, 3))))
        (currentCounts (createCountContextObjects (levelsOfTokens (λ _, 3)))) 2
      = Return (counts',
                Some (join "."
                        (map pretty (map (λ name : nat, 3 - 1) (seq 1 (2 - 1))
                                     ++ [3])%list)
                      +:+ ".")).
Proof.
  split; [exact safeTokens_three|].
  apply (first_heading_label "." (λ _, 3) 2); [lia|exact safeTokens_three].
Defined.

(** ** The signifier parser *)

Lemma trimStart_app_whitespace w s :
  allChars isWhiteSpace w = true → trimStart (w +:+ s) = trimStart s.
Proof.
  unfold trimStart. induction w as [|c w IH]; [done|]. cbn [allChars].
  intros [Hc Hw]%andb_true_iff. app_step. cbn [spanChars]. rewrite Hc.
  specialize (IH Hw). by destruct (spanChars isWhiteSpace (w +:+ s)).
Qed.

(** X13.  White space before the signifier, line breaks included, does not
    change what the parser returns; and a signifier it returns is never
    empty and holds only digits, letters and the marks [.], [-], [:], [,]
    and [~]. *)
Theorem checkAutoHeader_signifier (G : GlobalOptions) (w markdown : string) :
  allChars isWhiteSpace w = true →
  checkAutoHeader G (w +:+ markdown) = checkAutoHeader G markdown
  ∧ ∀ signifier,
      checkAutoHeader G markdown = Return signifier →
      signifier ≠ EmptyString ∧ allChars isSignifierChar signifier = true.
Proof.
  intros Hw. split.
  - unfold checkAutoHeader, trim. by rewrite trimStart_app_whitespace.
  - intros signifier. unfold checkAutoHeader.
    destruct (matchAutoHeader (trim markdown)) as [group1|] eqn:Hmatch.
    + cbn. intros [= ->]. unfold matchAutoHeader in Hmatch.
      destruct (match stripPrefix "@autoHeader:" (trim markdown) with
                | Some rest => Some rest
                | None => stripPrefix "<!-- autoHeader:" (trim markdown)
                end) as [rest|]; [|done].
      pose proof (spanChars_all isSignifierChar rest) as Hall.
      destruct (spanChars isSignifierChar rest).1; [done|].
      by injection Hmatch as <-.
    + by destruct G as [| |[]].
Qed.

Lemma checkAutoHeader_signifier_witness :
  checkAutoHeader OptionsUnbound (newline +:+ plainPage)
  = checkAutoHeader OptionsUnbound plainPage
  ∧ ∀ signifier,
      checkAutoHeader OptionsUnbound plainPage = Return signifier →
      signifier ≠ EmptyString ∧ allChars isSignifierChar signifier = true.
Proof. apply (checkAutoHeader_signifier OptionsUnbound newline plainPage). reflexivity. Defined.

(** X14.  The parser returns exactly when the trimmed page starts with the
    signifier pattern.  When it does not, the failure is
    [MissingSignifier] if errors are raised, a [TypeError] from reading the
    match if they are silenced, and a [ReferenceError] if [options] is not
    in scope. *)
Theorem checkAutoHeader_failure (markdown : string) :
  (∀ G, (∃ signifier, checkAutoHeader G markdown = Return signifier)
        ↔ is_Some (matchAutoHeader (trim markdown)))
  ∧ (checkAutoHeader (OptionsDebug true) markdown = Throw MissingSignifier
     ↔ matchAutoHeader (trim markdown) = None)
  ∧ (checkAutoHeader (OptionsDebug false) markdown = Throw TypeError
     ↔ matchAutoHeader (trim markdown) = None)
  ∧ (checkAutoHeader OptionsUnbound markdown = Throw (ReferenceError "options")
     ↔ matchAutoHeader (trim markdown) = None).
Proof.
  unfold checkAutoHeader.
  destruct (matchAutoHeader (trim markdown)) as [group1|].
  - split; [|by repeat split].
    intros G. split; [eauto|]. intros _. by exists group1.
  - split; [|by repeat split].
    intros G. split; [|by intros [??]].
    intros [signifier Hreturn]. by destruct G as [| |[]].
Qed.

(** ** The level-range resolver on any input *)

Lemma bind_Return_inv {A B} (r : result A) (k : A → result B) b :
  r ≫= k = Return b → ∃ a, r = Return a ∧ k a = Return b.
Proof. destruct r as [a|e]; [eauto|done]. Qed.

Lemma bind_Throw_inv {A B} (r : result A) (k : A → result B) e :
  r ≫= k = Throw e → r = Throw e ∨ ∃ a, r = Return a ∧ k a = Throw e.
Proof. destruct r as [a|e']; [eauto|]. intros [= ->]. by left. Qed.

Lemma report_Throw_inv G message e :
  report G message = Throw e →
  e = ReferenceError "options" ∨ e = TypeError ∨ e = Error message.
Proof. destruct G as [| |[]]; cbn; intros [= <-]; auto. Qed.

Lemma validateAndGetHeadingRange_Return_inv G input table :
  validateAndGetHeadingRange G input = Return table →
  ∃ start finish, table = buildHeadings start finish.
Proof.
  unfold validateAndGetHeadingRange.
  intros (_ & _ & ([start finish] & _ & (_ & _ & [= <-])%bind_Return_inv)
            %bind_Return_inv)%bind_Return_inv.
  eauto.
Qed.

(** X15.  Whatever the level spec, a table the resolver returns has
    exactly the keys [h1] ... [h6]. *)
Theorem resolver_table_keys (G : GlobalOptions) (input : LevelsInput)
    (table : gmap nat bool) (name : nat) :
  validateAndGetHeadingRange G input = Return table →
  is_Some (table !! name) ↔ (1 ≤ name ≤ 6)%nat.
Proof.
  intros (start & finish & ->)%validateAndGetHeadingRange_Return_inv.
  rewrite buildHeadings_lookup. case_bool_decide as Hname.
  - split; [done|]. intros _. by eexists.
  - split; [by intros [??]|done].
Qed.

Lemma resolver_table_keys_witness :
  is_Some (buildHeadings (Some 7) (Some 3) !! 4%nat) ↔ (1 ≤ 4 ≤ 6)%nat.
Proof.
  apply (resolver_table_keys (OptionsDebug false) (LObject (BNum 7) (BNum 3))).
  reflexivity.
Defined.

(** X16.  With errors silenced the resolver takes numeric bounds as they
    are, valid or not: the level [L] is in scope exactly when
    [start ≤ L ≤ finish], so a number above 6 puts the six levels in scope
    and an inverted pair puts none. *)
Theorem resolver_silent_table (start finish : Z) (L : nat) :
  (1 ≤ L ≤ 6)%nat →
  ∃ objectTable numberTable,
    validateAndGetHeadingRange (OptionsDebug false) (LObject (BNum start) (BNum finish))
    = Return objectTable
    ∧ objectTable !! L = Some (bool_decide (start ≤ Z.of_nat L ≤ finish))
    ∧ validateAndGetHeadingRange (OptionsDebug false) (LPrim (JNum finish))
      = Return numberTable
    ∧ numberTable !! L = Some (bool_decide (Z.of_nat L ≤ finish)).
Proof.
  intros HL.
  exists (buildHeadings (Some start) (Some finish)), (buildHeadings (Some 1) (Some finish)).
  split; [apply resolveObject_silent|].
  rewrite !buildHeadings_lookup, !bool_decide_eq_true_2 by done.
  unfold levelNum. rewrite !isInRange_spec. split; [done|]. split.
  - unfold validateAndGetHeadingRange. cbn.
    by match goal with |- context [if ?c then _ else _] => destruct c end.
  - f_equal. apply bool_decide_ext. lia.
Qed.

Lemma resolver_silent_table_witness :
  ∃ objectTable numberTable,
    validateAndGetHeadingRange (OptionsDebug false) (LObject (BNum 3) (BNum 2))
    = Return objectTable
    ∧ objectTable !! 3%nat = Some (bool_decide (3 ≤ Z.of_nat 3 ≤ 2))
    ∧ validateAndGetHeadingRange (OptionsDebug false) (LPrim (JNum 2))
      = Return numberTable
    ∧ numberTable !! 3%nat = Some (bool_decide (Z.of_nat 3 ≤ 2)).
Proof. apply (resolver_silent_table 3 2 3). lia. Defined.

Ltac resolver_cases :=
  unfold validateAndGetHeadingRange; cbn -[isInRange js_gt];
  repeat (match goal with
          | |- context [if ?c then _ else _] => destruct c; cbn -[isInRange js_gt]
          end).

(** X17.  With errors raised the resolver fails with [InvalidLevelType]
    exactly on a primitive that is not a number, [null] included, and with
    [NonNumericBound] exactly on an object one of whose bounds is not a
    number. *)
Theorem resolver_type_failures (input : LevelsInput) :
  (validateAndGetHeadingRange (OptionsDebug true) input = Throw InvalidLevelType
   ↔ ∃ v, input = LPrim v ∧ (∀ n, v ≠ JNum n))
  ∧ (validateAndGetHeadingRange (OptionsDebug true) input = Throw NonNumericBound
     ↔ ∃ start finish,
         input = LObject start finish
         ∧ (isNumber start = false ∨ isNumber finish = false)).
Proof.
  destruct input as [v|x|start finish]; (split; split).
  - intros Hr. exists v. split; [done|]. intros n ->. revert Hr.
    resolver_cases; by intros [=].
  - intros (v' & [= <-] & Hv).
    destruct v as [| |b|n|s]; try reflexivity. by destruct (Hv n).
  - intros Hr. exfalso. revert Hr.
    destruct v as [| |b|n|s]; resolver_cases; by intros [=].
  - by intros (? & ? & [=] & _).
  - intros Hr. exfalso. revert Hr. resolver_cases; by intros [=].
  - by intros (? & [=] & _).
  - intros Hr. exfalso. revert Hr. resolver_cases; by intros [=].
  - by intros (? & ? & [=] & _).
  - intros Hr. exfalso. revert Hr.
    destruct start as [| |[]|s|x], finish as [| |[]|f|y]; resolver_cases; by intros [=].
  - by intros (? & [=] & _).
  - intros Hr. exists start, finish. split; [done|].
    destruct start as [| |[]|s|x], finish as [| |[]|f|y]; cbn; auto.
    all: exfalso; revert Hr; resolver_cases; by intros [=].
  - intros (? & ? & [= <- <-] & Hbound).
    destruct start as [| |[]|s|x], finish as [| |[]|f|y]; cbn in Hbound;
      try reflexivity; by destruct Hbound.
Qed.

Lemma validSpec_Return G input :
  validSpec input →
  ∃ start finish : Z,
    validateAndGetHeadingRange G input = Return (buildHeadings (Some start) (Some finish))
    ∧ 1 ≤ start ∧ start ≤ finish ∧ finish ≤ 6.
Proof.
  destruct input as [[| |b|n|s]|x|[| |b|start|x] [| |b'|finish|y]]; try done; cbn.
  - intros Hn. exists 1, n.
    split; [by apply validateAndGetHeadingRange_number_valid|lia].
  - intros Hspec. exists start, finish.
    split; [apply validateAndGetHeadingRange_object_valid; lia|lia].
Qed.

Lemma Real_leb_trans x y z :
  Real_leb x y = true → Real_leb y z = true → Real_leb x z = true.
Proof.
  destruct x as [[]|a], y as [[]|b], z as [[]|c]; cbn; try done.
  rewrite !Qle_bool_iff. apply Qle_trans.
Qed.

(** What the order check and the range check accept. *)
Lemma checks_accept (start finish : option Real) :
  js_gt start finish = false
  ∧ isInRange start (Some 1) (Some 6) = true
  ∧ isInRange finish (Some 1) (Some 6) = true
  ↔ ∃ a b, start = Some a ∧ finish = Some b
           ∧ Real_le 1 a ∧ Real_le a b ∧ Real_le b 6.
Proof.
  unfold isInRange, js_le, js_ge, js_gt, Real_ltb, Real_le. split.
  - destruct start as [a|], finish as [b|]; try (by intros (_ & ? & ?)).
    rewrite negb_false_iff, !andb_true_iff.
    intros (Horder & [Ha _] & [_ Hb]). by exists a, b.
  - intros (a & b & -> & -> & Ha & Horder & Hb).
    rewrite negb_false_iff, !andb_true_iff. repeat split; try done.
    + by eapply Real_leb_trans.
    + by eapply Real_leb_trans.
Qed.

(** The resolver on numbers when [options] is not in scope: a table when
    the two checks accept, the [ReferenceError] otherwise. *)
Lemma resolver_unbound_checks (start finish : option Real) :
  ((if js_gt start finish
    then report OptionsUnbound (errorMessage "invalidHeadingLevelOrder")
    else Return tt) ;;
   (if negb (isInRange start (Some 1) (Some 6))
       || negb (isInRange finish (Some 1) (Some 6))
    then report OptionsUnbound (errorMessage "headingLevelRange") else Return tt) ;;
   Return (buildHeadings start finish))
  = if negb (js_gt start finish) && isInRange start (Some 1) (Some 6)
       && isInRange finish (Some 1) (Some 6)
    then Return (buildHeadings start finish)
    else Throw (ReferenceError "options").
Proof.
  destruct (js_gt start finish); [done|]. cbn [mbind result_bind negb andb].
  by destruct (isInRange start _ _), (isInRange finish _ _).
Qed.

Lemma acceptedSpec_checks input :
  acceptedSpec input
  ↔ ∃ start finish,
      specNumbers input = Some (start, finish)
      ∧ negb (js_gt start finish) && isInRange start (Some 1) (Some 6)
        && isInRange finish (Some 1) (Some 6) = true.
Proof.
  unfold acceptedSpec. split.
  - intros (start & finish & a & b & Hspec & -> & -> & Hbounds).
    exists (Some a), (Some b). split; [done|].
    destruct (proj2 (checks_accept (Some a) (Some b))) as (-> & -> & ->); [|done].
    by exists a, b.
  - intros (start & finish & Hspec & Hchecks).
    apply andb_true_iff in Hchecks as [Hchecks Hfinish].
    apply andb_true_iff in Hchecks as [Horder Hstart].
    apply negb_true_iff in Horder.
    destruct (proj1 (checks_accept start finish)) as (a & b & -> & -> & Hbounds);
      [done|].
    exists (Some a), (Some b), a, b. eauto.
Qed.

Lemma resolver_unbound_numbers input start finish :
  specNumbers input = Some (start, finish) →
  validateAndGetHeadingRange OptionsUnbound input
  = if negb (js_gt start finish) && isInRange start (Some 1) (Some 6)
       && isInRange finish (Some 1) (Some 6)
    then Return (buildHeadings start finish)
    else Throw (ReferenceError "options").
Proof.
  unfold specNumbers, validateAndGetHeadingRange.
  destruct input as [[| |b|n|s]|x|s f]; try done.
  - intros [= <- <-]. cbn [mbind result_bind].
    rewrite js_gt_integer, !isInRange_spec.
    rewrite (bool_decide_eq_true_2 (1 ≤ 1 ≤ 6)) by lia.
    destruct (decide (1 ≤ n ≤ 6)) as [Hn|Hn].
    + rewrite (bool_decide_eq_true_2 (1 ≤ n ≤ 6)) by done.
      by rewrite (proj2 (Z.ltb_ge n 1)) by lia.
    + rewrite (bool_decide_eq_false_2 (1 ≤ n ≤ 6)) by done.
      by rewrite andb_false_r.
  - intros [= <- <-]. cbn [mbind result_bind].
    rewrite <- resolver_unbound_checks.
    destruct (js_gt (Some (integer 1)) (realOf x)) eqn:Horder; [|done].
    cbn [mbind result_bind report globalDebug].
    assert (Hout : isInRange (realOf x) (Some 1) (Some 6) = false).
    { unfold js_gt in Horder. destruct (realOf x) as [r|]; [|done].
      unfold isInRange, js_ge, Real_ltb in *.
      apply negb_true_iff in Horder. by rewrite Horder. }
    rewrite Hout. cbn [negb]. by rewrite orb_true_r.
  - destruct (isNumber s && isNumber f) eqn:Hnumbers; [|done].
    apply andb_true_iff in Hnumbers as [-> ->].
    intros [= <- <-]. cbn [mbind result_bind negb orb].
    destruct (js_gt (toNumber s) (toNumber f)); [done|].
    cbn [mbind result_bind negb andb].
    by destruct (isInRange (toNumber s) _ _), (isInRange (toNumber f) _ _).
Qed.

Lemma resolver_unbound_others input :
  specNumbers input = None →
  validateAndGetHeadingRange OptionsUnbound input = Throw (ReferenceError "options").
Proof.
  unfold specNumbers, validateAndGetHeadingRange.
  destruct input as [[| |b|n|s]|x|s f]; try done.
  destruct (isNumber s && isNumber f) eqn:Hnumbers; [done|]. intros _.
  apply andb_false_iff in Hnumbers as [-> | ->]; cbn [negb orb]; [done|].
  by rewrite orb_true_r.
Qed.

(** X18.  When [options] is not in scope of the resolver, a level spec
    whose numbers satisfy [1 ≤ start ≤ finish ≤ 6] gives its table and
    every other level spec a [ReferenceError], whatever the debug option of
    the configuration says. *)
Theorem resolver_unbound (input : LevelsInput) :
  (acceptedSpec input
   ∧ ∃ table, validateAndGetHeadingRange OptionsUnbound input = Return table)
  ∨ (¬ acceptedSpec input
     ∧ validateAndGetHeadingRange OptionsUnbound input
       = Throw (ReferenceError "options")).
Proof.
  rewrite acceptedSpec_checks.
  destruct (specNumbers input) as [[start finish]|] eqn:Hspec.
  - rewrite (resolver_unbound_numbers input start finish Hspec).
    destruct (negb _ && _ && _) eqn:Hchecks.
    + left. split; [by exists start, finish|by eexists].
    + right. split; [|done].
      intros (start' & finish' & [= <- <-] & Haccept). congruence.
  - right. split; [by intros (? & ? & [=] & _)|].
    by apply resolver_unbound_others.
Qed.

Lemma validateAndGetHeadingRange_Throw_inv G input e :
  validateAndGetHeadingRange G input = Throw e → resolverError e.
Proof.
  unfold resolverError.
  destruct input as [[| |b|n|s]|x|[| |[]|start|x] [| |[]|finish|y]], G as [| |[]];
    resolver_cases; intros [= <-]; auto 10.
Qed.

(** ** Option normalisation and the options object *)

Lemma setDefaultOptions_cases options :
  (truthy (raw_debug options) = true
   ∧ (truthy (raw_separator options) = false
      ∨ raw_levels options = LPrim JUndefined)
   ∧ setDefaultOptions options = Throw ConfigurationNotSet)
  ∨ (¬ (truthy (raw_debug options) = true
        ∧ (truthy (raw_separator options) = false
           ∨ raw_levels options = LPrim JUndefined))
     ∧ setDefaultOptions options
       = Return {| def_separator := lookupSeparator (raw_separator options);
                   def_levels := if levelsTruthy (raw_levels options)
                                 then raw_levels options else LPrim (JNum 6);
                   def_sidebar := truthy (raw_sidebar options);
                   def_debug := truthy (raw_debug options) |}).
Proof.
  destruct options as [sep lv sb db]. unfold setDefaultOptions.
  cbn [raw_separator raw_levels raw_sidebar raw_debug].
  assert (Hundef : (match lv with LPrim JUndefined => true | _ => false end) = true
                   ↔ lv = LPrim JUndefined).
  { destruct lv as [[]| |]; split; try done. }
  destruct (match lv with LPrim JUndefined => true | _ => false end) eqn:Hlv.
  - rewrite orb_true_r. destruct (truthy db); cbn.
    + left. repeat split. right. by apply Hundef.
    + right. split; [by intros [[=] _]|done].
  - rewrite orb_false_r.
    assert (Hlv' : lv ≠ LPrim JUndefined) by (intros H%Hundef; congruence).
    destruct (truthy sep), (truthy db); cbn.
    + right. split; [|done]. by intros (_ & [[=]|?]).
    + right. split; [by intros [[=] _]|done].
    + left. repeat split. by left.
    + right. split; [by intros [[=] _]|done].
Qed.

(** X19.  Option normalisation raises exactly when [debug] is truthy and
    the separator is falsy or [levels] is undefined, and what it raises is
    [ConfigurationNotSet].  What it returns has a truthy [levels], 6 in
    place of a falsy one, and booleans for [sidebar] and [debug]. *)
Theorem setDefaultOptions_guard (options : RawOptions) :
  (raises (setDefaultOptions options)
   ↔ truthy (raw_debug options) = true
     ∧ (truthy (raw_separator options) = false
        ∨ raw_levels options = LPrim JUndefined))
  ∧ (∀ e, setDefaultOptions options = Throw e → e = ConfigurationNotSet)
  ∧ (∀ normalised,
       setDefaultOptions options = Return normalised →
       def_levels normalised
       = (if levelsTruthy (raw_levels options) then raw_levels options
          else LPrim (JNum 6))
       ∧ levelsTruthy (def_levels normalised) = true
       ∧ def_sidebar normalised = truthy (raw_sidebar options)
       ∧ def_debug normalised = truthy (raw_debug options)).
Proof.
  destruct (setDefaultOptions_cases options) as [(Hdb & Hbad & ->)|(Hok & ->)].
  - split; [|split].
    + split; [done|]. intros _. by eexists.
    + by intros e [= <-].
    + by intros normalised [=].
  - split; [|split].
    + split; [by intros [e [=]]|done].
    + by intros e [=].
    + intros normalised [= <-]. cbn. repeat split.
      by destruct (levelsTruthy (raw_levels options)) eqn:Hl.
Qed.

(** X20.  The sidebar check of [autoHeaders] cannot fail: it is handed the
    boolean that option normalisation made of the [sidebar] option.  So the
    options object, when it is built, holds that boolean, which selects
    the text renderer when true and the tree renderer otherwise, and a
    level table with the keys [h1] ... [h6]; and when it is not built, the
    exception comes from option normalisation or from the level spec. *)
Theorem autoHeadersOptions_setup (G : GlobalOptions) (defaults : RawOptions) :
  (∀ options,
     autoHeadersOptions G defaults = Return options →
     plugin_sidebar options = JBool (truthy (raw_sidebar defaults))
     ∧ registeredRenderer options
       = (if truthy (raw_sidebar defaults) then TextHook else TreeHook)
     ∧ plugin_debug options = truthy (raw_debug defaults)
     ∧ plugin_shouldContinue options = false
     ∧ ∀ name, is_Some (plugin_levels options !! name) ↔ (1 ≤ name ≤ 6)%nat)
  ∧ (∀ e,
       autoHeadersOptions G defaults = Throw e →
       e = ConfigurationNotSet ∨ resolverError e).
Proof.
  unfold autoHeadersOptions.
  destruct (setDefaultOptions_cases defaults) as [(_ & _ & ->)|(_ & ->)].
  { split; [by intros options [=]|]. intros e [= <-]. by left. }
  cbn [mbind result_bind def_levels def_sidebar def_separator def_debug
       validateAndReturnSidebar].
  destruct (validateAndGetHeadingRange G _) as [table|e'] eqn:Hrange.
  - split; [|by intros e [=]].
    intros options [= <-]. cbn. split; [done|]. split; [done|].
    split; [done|]. split; [done|]. intros name.
    apply (validateAndGetHeadingRange_Return_inv) in Hrange as (s & f & ->).
    rewrite buildHeadings_lookup. case_bool_decide as Hname.
    + split; [done|]. intros _. by eexists.
    + split; [by intros [??]|done].
  - split; [by intros options [=]|].
    intros e [= <-]. right. by eapply validateAndGetHeadingRange_Throw_inv.
Qed.

(** X21.  A configuration with a truthy separator and a valid level spec
    sets up whatever [options] is bound to in the scope of the resolver,
    and whatever its debug option: nothing is reported, so the debug flag
    is never read.  The shipped defaults are such a configuration. *)
Theorem autoHeadersOptions_valid (G : GlobalOptions) (user : option UserConfig) :
  truthy (raw_separator (assignUserConfig docsifyAutoHeadersDefaults user)) = true →
  validSpec (raw_levels (assignUserConfig docsifyAutoHeadersDefaults user)) →
  ∃ options (start finish : Z),
    autoHeadersOptions G (assignUserConfig docsifyAutoHeadersDefaults user)
    = Return options
    ∧ plugin_levels options = buildHeadings (Some start) (Some finish)
    ∧ 1 ≤ start ∧ start ≤ finish ∧ finish ≤ 6.
Proof.
  set (raw := assignUserConfig docsifyAutoHeadersDefaults user).
  intros Hsep Hspec. unfold autoHeadersOptions.
  destruct (setDefaultOptions_cases raw) as [(_ & [Hbad|Hbad] & _)|(_ & ->)].
  { congruence. }
  { rewrite Hbad in Hspec. destruct Hspec. }
  cbn [mbind result_bind def_levels def_sidebar def_separator def_debug
       validateAndReturnSidebar].
  assert (Htruthy : levelsTruthy (raw_levels raw) = true).
  { destruct (raw_levels raw) as [[| |b|n|s]| |]; try done. cbn in *.
    apply negb_true_iff, Z.eqb_neq. lia. }
  rewrite Htruthy.
  destruct (validSpec_Return G _ Hspec) as (start & finish & -> & Hbounds).
  by eexists _, start, finish.
Qed.

Lemma autoHeadersOptions_valid_witness :
  ∃ options (start finish : Z),
    autoHeadersOptions OptionsUnbound (assignUserConfig docsifyAutoHeadersDefaults None)
    = Return options
    ∧ plugin_levels options = buildHeadings (Some start) (Some finish)
    ∧ 1 ≤ start ∧ start ≤ finish ∧ finish ≤ 6.
Proof.
  apply (autoHeadersOptions_valid OptionsUnbound None); [reflexivity|].
  cbn. lia.
Defined.

(** ** The render hooks *)

(** X22.  The tree hook never changes a heading and never hands anything
    but [undefined] to the next step: it raises [ExitingError] when the
    first hook failed and [debug] is on, and otherwise every heading is as
    it was, whether the input is an element, a string or nothing. *)
Theorem afterEachRender_result (options : Options) (html : HookInput) :
  afterEachRender options html
  = (html,
     if negb (shouldContinue options) && debug options
     then Throw ExitingError else Return None).
Proof.
  unfold afterEachRender. destruct (negb _ && _); [done|].
  unfold applyScopedHeadingCounts. cbn [String.eqb Ascii.eqb].
  change (String.eqb "html" "html") with true. cbv iota.
  destruct html as [|text|[|heading headings]]; try done.
Qed.

Lemma beforeEachTry_sixLevels G defaultLevels options markdown options' cleaned :
  beforeEachTry G defaultLevels options markdown = Return (options', cleaned) →
  sixLevels (levels options').
Proof.
  unfold beforeEachTry.
  destruct (checkAutoHeader G markdown) as [signifier|]; [cbn|done].
  destruct (if String.eqb signifier "" then _ else _); [cbn|done].
  destruct (validateAndGetHeadingRange G defaultLevels) as [ranges|] eqn:Hranges;
    [cbn|done].
  destruct (getStartingValues G signifier (separator options)); [cbn|done].
  intros [= <- _]. cbn [levels].
  apply validateAndGetHeadingRange_Return_inv in Hranges as (start & finish & ->).
  intros name Hname.
  rewrite mergeConfiguration_lookup, buildHeadings_lookup.
  rewrite bool_decide_eq_true_2 by done. by eexists.
Qed.

(** X23.  The two text hooks compose: when the first hook hands a text on,
    the second labels that text and hands the result on; it does not raise
    and does not hand [undefined] on.  A heading match is labelled exactly
    when its level is in scope of the configuration the first hook left. *)
Theorem text_hooks_compose (G : GlobalOptions) (defaultLevels : LevelsInput)
    (options options' : Options) (markdown cleaned : string) :
  beforeEachSignifier G defaultLevels options markdown
  = Return (options', Some cleaned) →
  ∃ labels,
    beforeEachRender options' (Some cleaned)
    = Return (Some (renderWith (scanHeadings cleaned) labels))
    ∧ Forall2 (λ headingLevel label,
                 is_Some label ↔ levelInScope (levels options') headingLevel)
        (chunkLevels (scanHeadings cleaned)) labels.
Proof.
  unfold beforeEachSignifier.
  destruct (beforeEachTry G defaultLevels options markdown)
    as [[options'' cleaned']|e] eqn:Htry; [|done].
  intros [= <- <-].
  pose proof (beforeEachTry_sixLevels _ _ _ _ _ _ Htry) as Hsix.
  apply beforeEachTry_Return in Htry as (_ & Hcontinue & _).
  destruct (labelsRun_returns (separator options'')
              (scopedTagNames (createCountContextObjects (levels options'')))
              (currentCounts (createCountContextObjects (levels options'')))
              (chunkLevels (scanHeadings cleaned')))
    as (labels & Hrun & Hall).
  { by apply createCountContextObjects_complete. }
  { apply chunkLevels_wellFormed, scanGo_wellFormed. }
  exists labels. unfold beforeEachRender, applyScopedHeadingCountsMarkdown.
  rewrite Hcontinue. cbn [negb]. cbn [mbind result_bind].
  rewrite parseMarkdown_labels, Hrun. split; [done|].
  eapply Forall2_impl; [exact Hall|].
  intros L label Hlabel. by rewrite <- elem_of_scopedTagNames.
Qed.

Lemma text_hooks_compose_witness :
  ∃ labels,
    beforeEachRender labelledOptions (Some "# Title")
    = Return (Some (renderWith (scanHeadings "# Title") labels))
    ∧ Forall2 (λ headingLevel label,
                 is_Some label ↔ levelInScope (levels labelledOptions) headingLevel)
        (chunkLevels (scanHeadings "# Title")) labels.
Proof.
  apply (text_hooks_compose OptionsUnbound (LPrim (JNum 6)) (pageOptions true)
           labelledOptions plainPage "# Title").
  by vm_compute.
Defined.

(** X24.  The [try] block of the first hook raises nothing but a
    [ReferenceError], a [TypeError], [MissingSignifier], [InvalidLevelType],
    [NonNumericBound], [InvertedRange] and an [Error] without message.  In
    particular it never raises the messages [misconfiguredSignifier],
    [mismatchedSeparator], [invalidHeadingLevelRange] or
    [invalidHeadingLevelNumber]. *)
Theorem beforeEachTry_errors (G : GlobalOptions) (defaultLevels : LevelsInput)
    (options : Options) (markdown : string) (e : exn) :
  beforeEachTry G defaultLevels options markdown = Throw e →
  signifierHookError e
  ∧ e ≠ MalformedSignifier
  ∧ e ≠ Error (errorMessage "mismatchedSeparator")
  ∧ e ≠ OutOfRange
  ∧ e ≠ Error (errorMessage "invalidHeadingLevelNumber").
Proof.
  intros Hthrow.
  assert (Hkind : signifierHookError e).
  { revert Hthrow. unfold beforeEachTry, signifierHookError, resolverError.
    intros [Hcheck|(signifier & _ & Hthrow)]%bind_Throw_inv.
    { revert Hcheck. unfold checkAutoHeader.
      destruct (matchAutoHeader (trim markdown)), G as [| |[]]; cbn;
        intros [= <-]; auto 10. }
    apply bind_Throw_inv in Hthrow as [Hlocal|(_ & _ & Hthrow)].
    { revert Hlocal. destruct (String.eqb signifier ""), (debug options); cbn;
        intros [= <-]; auto. }
    apply bind_Throw_inv in Hthrow as [Hrange|(ranges & _ & Hthrow)].
    { right. by eapply validateAndGetHeadingRange_Throw_inv. }
    apply bind_Throw_inv in Hthrow as [Hstart|(sv & _ & Hthrow)].
    { revert Hstart. unfold getStartingValues.
      destruct (negb _); [|done].
      intros [Hreport|(? & _ & [=])]%bind_Throw_inv.
      apply report_Throw_inv in Hreport as [->|[->| ->]]; auto 10. }
    by apply bind_Throw_inv in Hthrow as [Hdead|(_ & _ & [=])]. }
  split; [done|].
  unfold signifierHookError, resolverError in Hkind.
  repeat split; intros ->;
    by destruct Hkind as [[=]|[[=]|[[=]|[[=]|[[=]|[[=]|[=]]]]]]].
Qed.

Lemma beforeEachTry_errors_witness :
  signifierHookError MissingSignifier
  ∧ MissingSignifier ≠ MalformedSignifier
  ∧ MissingSignifier ≠ Error (errorMessage "mismatchedSeparator")
  ∧ MissingSignifier ≠ OutOfRange
  ∧ MissingSignifier ≠ Error (errorMessage "invalidHeadingLevelNumber").
Proof.
  apply (beforeEachTry_errors (OptionsDebug true) (LPrim (JNum 6))
           (pageOptions true) untitledPage MissingSignifier).
  reflexivity.
Defined.

(** X25.  With [debug] off the second text hook ignores the failure flag of
    the first: it does to the text it receives what it does after a
    success.  It raises exactly when the flag is down and [debug] is on,
    and what it raises then is [ExitingError]. *)
Theorem beforeEachRender_flag (options : Options) (markdown : option string) :
  (debug options = false →
   beforeEachRender options markdown
   = beforeEachRender (setShouldContinue true options) markdown)
  ∧ (raises (beforeEachRender options markdown)
     ↔ shouldContinue options = false ∧ debug options = true)
  ∧ (∀ e, beforeEachRender options markdown = Throw e → e = ExitingError).
Proof.
  unfold beforeEachRender, showErrorMessage. cbn [shouldContinue setShouldContinue
    debug levels separator negb].
  assert (Hrender : ∀ e,
            match markdown with
            | Some text =>
                match applyScopedHeadingCountsMarkdown (levels options)
                        (separator options) text with
                | Return output => Return (Some output)
                | Throw _ => Return None
                end
            | None => Return None
            end ≠ (Throw e : result (option string))).
  { intros e. destruct markdown as [text|]; [|done].
    by destruct (applyScopedHeadingCountsMarkdown _ _ _). }
  destruct (shouldContinue options), (debug options); cbn [negb mbind result_bind].
  - split; [done|]. split; [|by intros e ?%Hrender].
    split; [by intros [e ?%Hrender]|by intros [[=] _]].
  - split; [done|]. split; [|by intros e ?%Hrender].
    split; [by intros [e ?%Hrender]|by intros [[=] _]].
  - split; [done|]. split; [|by intros e [= <-]].
    split; [done|]. intros _. by eexists.
  - split; [done|]. split; [|by intros e ?%Hrender].
    split; [by intros [e ?%Hrender]|by intros [_ [=]]].
Qed.

(** ** The tree step under a bound context *)

(** X26.  Run with [this] bound to the count context, the tree step writes
    into the heading elements the labels the text renderer writes into a
    text with the same sequence of heading levels, and does not throw. *)
Theorem tree_step_bound_agrees (levels : gmap nat HeadingConfig)
    (separator markdown : string) (nodes : list HeadingNode) :
  sixLevels levels →
  map level nodes = chunkLevels (scanHeadings markdown) →
  ∃ labels,
    parseMarkdown markdown separator levels
    = Return (renderWith (scanHeadings markdown) labels)
    ∧ forEachHeadingBound (createCountContextObjects levels) separator nodes
      = (zip_with prependLabel labels nodes, None).
Proof.
  intros Hsix Hsame.
  assert (Hlevels : Forall (λ L, (1 ≤ L ≤ 6)%nat) (chunkLevels (scanHeadings markdown)))
    by apply chunkLevels_wellFormed, scanGo_wellFormed.
  destruct (labelsRun_returns separator
              (scopedTagNames (createCountContextObjects levels))
              (currentCounts (createCountContextObjects levels))
              (chunkLevels (scanHeadings markdown)))
    as (labels & Hrun & _); [by apply createCountContextObjects_complete|done|].
  exists labels. rewrite parseMarkdown_labels, Hrun. split; [done|].
  apply forEachHeadingBound_labels; [|by rewrite Hsame].
  rewrite <- Hsame in Hlevels. by apply Forall_map in Hlevels.
Qed.

Lemma tree_step_bound_agrees_witness :
  ∃ labels,
    parseMarkdown outlineDocument "-" levelsOneOne
    = Return (renderWith (scanHeadings outlineDocument) labels)
    ∧ forEachHeadingBound (createCountContextObjects levelsOneOne) "-" outlineNodes
      = (zip_with prependLabel labels outlineNodes, None).
Proof.
  apply (tree_step_bound_agrees levelsOneOne "-" outlineDocument outlineNodes).
  - exact levelsOneOne_sixLevels.
  - reflexivity.
Defined.

(** ** Which lines are headings *)

Lemma spanChars_exact p run rest :
  allChars p run = true →
  endsOrHead (λ c, negb (p c)) rest →
  spanChars p (run +:+ rest) = (run, rest).
Proof.
  intros Hrun Hrest. induction run as [|c run IH].
  - app_step. destruct Hrest as [->|(c & rest' & -> & Hc)]; [done|].
    cbn [spanChars]. apply negb_true_iff in Hc. by rewrite Hc.
  - cbn [allChars] in Hrun. apply andb_true_iff in Hrun as [Hc Hrun].
    app_step. cbn [spanChars]. by rewrite Hc, (IH Hrun).
Qed.

Lemma headSatisfies_app p s rest :
  headSatisfies p s → headSatisfies p (s +:+ rest).
Proof. intros (c & s' & -> & Hc). exists c, (s' +:+ rest). by app_step. Qed.

Lemma scanGo_skip_all s atLineStart :
  scanGo s atLineStart (String.length s) = [].
Proof.
  revert atLineStart. induction s as [|c s IH]; intros atLineStart; [done|].
  cbn. apply IH.
Qed.

Lemma matchHeading_complete (hashes space text tail : string) :
  allChars isHash hashes = true →
  (1 ≤ String.length hashes ≤ 6)%nat →
  allChars isWhiteSpace space = true →
  headSatisfies isWhiteSpace space →
  allChars notLineTerminator text = true →
  headSatisfies notWhiteSpace text →
  endsOrHead isLineTerminator tail →
  matchHeading (hashes +:+ space +:+ text +:+ tail) = Some (hashes, space, text).
Proof.
  intros Hhashes Hlen Hspace Hspace1 Htext Htext1 Htail.
  unfold matchHeading.
  rewrite (spanChars_exact isHash hashes).
  - rewrite (spanChars_exact isWhiteSpace space).
    + fold notLineTerminator.
      rewrite (spanChars_exact notLineTerminator text).
      * destruct Hlen as [Hlo Hhi].
        apply Nat.leb_le in Hlo, Hhi. rewrite Hlo, Hhi.
        by destruct Hspace1 as (c & space' & -> & _).
      * done.
      * destruct Htail as [->|(c & tail' & -> & Hc)]; [by left|right].
        exists c, tail'. split; [done|]. unfold notLineTerminator.
        by rewrite Hc.
    + done.
    + right. apply headSatisfies_app.
      destruct Htext1 as (c & text' & -> & Hc). by exists c, text'.
  - done.
  - right. apply headSatisfies_app.
    destruct Hspace1 as (c & space' & -> & Hc). exists c, space'.
    split; [done|].
    destruct c as [[] [] [] [] [] [] [] []]; try discriminate Hc; reflexivity.
Qed.

(** X27.  A run of one to six [#] at the start of the text, then white
    space, then a text that starts with a visible code unit and holds no
    line break, up to a line break or the end, is a heading match with
    exactly these parts; the scan resumes behind it. *)
Theorem scanHeadings_heading (hashes space text tail : string) :
  allChars isHash hashes = true →
  (1 ≤ String.length hashes ≤ 6)%nat →
  allChars isWhiteSpace space = true →
  headSatisfies isWhiteSpace space →
  allChars notLineTerminator text = true →
  headSatisfies notWhiteSpace text →
  endsOrHead isLineTerminator tail →
  ∃ rest,
    scanHeadings (hashes +:+ space +:+ text +:+ tail)
    = Heading hashes space text :: rest
    ∧ chunksText rest = tail.
Proof.
  intros Hhashes Hlen Hspace Hspace1 Htext Htext1 Htail.
  pose proof (matchHeading_complete hashes space text tail
                Hhashes Hlen Hspace Hspace1 Htext Htext1 Htail) as Hmatch.
  destruct hashes as [|c hashes']; [cbn in Hlen; lia|].
  unfold scanHeadings. revert Hmatch. app_step. intros Hmatch.
  cbn [scanGo]. rewrite Hmatch. eexists. split; [done|].
  rewrite scanGo_text.
  - unfold matched. app_step. cbn [String.length].
    replace (S (String.length (hashes' +:+ space +:+ text)) - 1)%nat
      with (String.length (hashes' +:+ space +:+ text)) by lia.
    replace (hashes' +:+ space +:+ text +:+ tail)
      with ((hashes' +:+ space +:+ text) +:+ tail).
    + apply dropChars_app.
    + clear. induction hashes' as [|c h IH]; app_step.
      * induction space as [|c w IH]; app_step; [done|]. by rewrite IH.
      * by rewrite IH.
  - unfold matched. app_step. cbn [String.length].
    rewrite !string_length_app. lia.
Qed.

Lemma scanHeadings_heading_witness :
  ∃ rest,
    scanHeadings ("##" +:+ " " +:+ "b" +:+ (newline +:+ "## c"))
    = Heading "##" " " "b" :: rest
    ∧ chunksText rest = newline +:+ "## c".
Proof.
  apply (scanHeadings_heading "##" " " "b" (newline +:+ "## c"));
    try reflexivity.
  - cbn. lia.
  - by exists " "%char, EmptyString.
  - by exists "b"%char, EmptyString.
  - right. by exists "010"%char, "## c".
Defined.

Lemma levelsOfTokens_sixLevels token : sixLevels (levelsOfTokens token).
Proof.
  intros name Hname.
  rewrite levelsOfTokens_lookup, bool_decide_eq_true_2 by done. eauto.
Qed.

Lemma levelsOfTokens_inScope token name :
  (1 ≤ name ≤ 6)%nat → levelInScope (levelsOfTokens token) name.
Proof.
  intros Hname. unfold levelInScope.
  rewrite levelsOfTokens_lookup, bool_decide_eq_true_2 by done. eauto.
Qed.

(** X28.  A page that is one heading line, on a configuration with the six
    levels in scope and tokens that are safe integers along with their
    predecessors, comes back as the [#] run, one space, the label, one
    space and the heading text, whatever white space stood between the
    [#] run and the text. *)
Theorem heading_page_labelled (separator : string) (token : nat → Z)
    (hashes space text : string) :
  safeTokens token →
  allChars isHash hashes = true →
  (1 ≤ String.length hashes ≤ 6)%nat →
  allChars isWhiteSpace space = true →
  headSatisfies isWhiteSpace space →
  allChars notLineTerminator text = true →
  headSatisfies notWhiteSpace text →
  parseMarkdown (hashes +:+ space +:+ text) separator (levelsOfTokens token)
  = Return (hashes +:+ " "
            +:+ (join separator
                   (map pretty
                      (map (λ name, token name - 1)
                         (seq 1 (String.length hashes - 1))
                       ++ [token (String.length hashes)])%list)
                 +:+ separator)
            +:+ " " +:+ text).
Proof.
  intros Hsafe Hhashes Hlen Hspace Hspace1 Htext Htext1.
  pose proof (matchHeading_complete hashes space text EmptyString
                Hhashes Hlen Hspace Hspace1 Htext Htext1 (or_introl eq_refl))
    as Hmatch.
  rewrite string_app_nil_r in Hmatch.
  assert (Hscan : scanHeadings (hashes +:+ space +:+ text)
                  = [Heading hashes space text]).
  { unfold scanHeadings.
    destruct (hashes +:+ space +:+ text) as [|c rest] eqn:Hpage.
    { destruct hashes; [cbn in Hlen; lia|done]. }
    cbn [scanGo]. rewrite Hmatch. f_equal.
    replace (String.length (matched hashes space text) - 1)%nat
      with (String.length rest).
    - apply scanGo_skip_all.
    - unfold matched. rewrite Hpage. cbn. lia. }
  set (levels := levelsOfTokens token).
  assert (Hown : - 2 ^ 53 < token (String.length hashes) < 2 ^ 53)
    by (by destruct (Hsafe (String.length hashes) Hlen) as [_ Hown]).
  destruct (advance_in_scope separator
              (scopedTagNames (createCountContextObjects levels))
              (currentCounts (createCountContextObjects levels))
              (String.length hashes) Hlen)
    as (counts' & Hadv & _).
  { apply createCountContextObjects_complete, levelsOfTokens_sixLevels. }
  { by apply elem_of_scopedTagNames, levelsOfTokens_inScope. }
  { unfold levels. rewrite levelsOfTokens_seed by done. lia. }
  rewrite parseMarkdown_labels, Hscan. cbn [chunkLevels labelsRun].
  fold levels. rewrite Hadv. cbn [mbind result_bind renderWith].
  rewrite string_app_nil_r.
  unfold labelUnder, levels.
  rewrite levelsOfTokens_seed by done.
  replace (token (String.length hashes) - 1 + 1) with (token (String.length hashes))
    by lia.
  assert (Hlist :
    map numberToString
      (map (currentAt (currentCounts (createCountContextObjects (levelsOfTokens token))))
         (seq 1 (String.length hashes - 1))
       ++ [token (String.length hashes)])%list
    = map pretty
        (map (λ name, token name - 1) (seq 1 (String.length hashes - 1))
         ++ [token (String.length hashes)])%list).
  { rewrite !map_app, !map_map. f_equal.
    - apply map_ext_in. intros name Hname%in_seq.
      rewrite levelsOfTokens_seed by (done || lia).
      apply numberToString_safe.
      destruct (Hsafe name) as [Hless _]; [lia|]. unfold safeInteger in Hless. lia.
    - cbn [map]. f_equal. apply numberToString_safe. lia. }
  by rewrite Hlist.
Qed.

Lemma heading_page_labelled_witness :
  safeTokens (λ _, 3)
  ∧ parseMarkdown ("##" +:+ "   " +:+ "Install") "." (levelsOfTokens (λ _, 3))
    = Return "## 2.3. Install".
Proof.
  split; [exact safeTokens_three|].
  apply (heading_page_labelled "." (λ _, 3) "##" "   " "Install");
    try reflexivity.
  - exact safeTokens_three.
  - cbn. lia.
  - by exists " "%char, "  ".
  - by exists "I"%char, "nstall".
Defined.
